(** * fetchEnhanced: retry, backoff and response classification

    A shallow embedding of [src/js/utils/fetch/fetch.js] and of the
    documented variant of the same function that ships in the guide
    ([src/unnamed/part_000]), together with the properties the
    specification states about them.

    Conventions of the embedding
    - JavaScript strings are byte strings ([string]); a key or value that
      reaches the URL is taken as its UTF-8 byte sequence.
    - [retries] and the attempt counter are natural numbers, delays are
      integers (milliseconds); the floating point rounding of very large
      delays is not modelled.
    - A thrown value is an error record; a [try]/[catch] is a match on a
      [Result].
    - The host is a parameter: [JSON.stringify], and [fetch] as a function
      of the ordinal of the call inside one logical request, the URL and the
      request options. [URL] and [URLSearchParams] follow the URL standard.
    - The locator is the record the host's URL parser makes of an absolute
      URL: the part before its query, its query and its fragment, in the
      parser's normal form; the parsing of the string (its normalisation,
      and the [TypeError] for a string that is not an absolute URL) is not
      modelled.
    - A run yields its outcome together with the list of the requests it
      issued and the delays it slept, in order.
    - [console.debug]/[console.error] output is not modelled. *)

From Stdlib Require Import ZArith String Ascii List Bool Lia.
From Stdlib Require Import DecimalString.
From stdpp Require Import base option gmap strings.
From Equations Require Import Equations.
Import ListNotations.

Set Warnings "-register-all,-notation-for-abbreviation".
Local Open Scope string_scope.
Local Open Scope Z_scope.

(** ** JavaScript strings *)

Definition upper_char (c : ascii) : ascii :=
  let n := N_of_ascii c in
  if ((97 <=? n) && (n <=? 122))%N then ascii_of_N (n - 32) else c.

(** [String.prototype.toUpperCase], on ASCII letters. *)
Fixpoint toUpperCase (s : string) : string :=
  match s with
  | EmptyString => EmptyString
  | String c r => String (upper_char c) (toUpperCase r)
  end.

(** [String.prototype.includes]. *)
Fixpoint includes (s sub : string) : bool :=
  String.prefix sub s ||
  match s with
  | EmptyString => false
  | String _ r => includes r sub
  end.

(** [String(n)] for an integer [n]. *)
Definition string_of_Z (z : Z) : string :=
  NilZero.string_of_int (Z.to_int z).

(** Truthiness of a string: [''] is falsy. *)
Definition truthy_string (s : string) : bool :=
  match s with EmptyString => false | _ => true end.

(** ** Values *)

(** JSON values, as produced by [response.json()] and accepted as a
    structured request body. *)
Inductive Json : Type :=
| JNull
| JBool (b : bool)
| JNumber (z : Z)
| JString (s : string)
| JArray (items : list Json)
| JObject (fields : list (string * Json)).

(** What a body-reading operation yields; [PNull] is JavaScript's [null]. *)
Inductive Payload : Type :=
| PNull
| PJson (v : Json)
| PText (s : string)
| PBlob (bytes : string)
| PArrayBuffer (bytes : string).

(** ** Errors

    [e_name] is [error.name]; [e_isTypeError] is
    [error instanceof TypeError]; [e_status] and [e_data] are the properties
    a [FetchError] carries ([None] when the property is absent); [e_url],
    [e_method] and [e_attempt] are the properties [enhanceError] attaches. *)
Record JsError : Type := mkError {
  e_name : string;
  e_isTypeError : bool;
  e_message : string;
  e_status : option Z;
  e_data : option Payload;
  e_url : option string;
  e_method : option string;
  e_attempt : option nat
}.

(** ** Completions: a value or a thrown error *)

Inductive Result (A : Type) : Type :=
| Ok (a : A)
| Throw (e : JsError).
Arguments Ok {A} a.
Arguments Throw {A} e.

Definition bind {A B} (c : Result A) (k : A -> Result B) : Result B :=
  match c with
  | Ok a => k a
  | Throw e => Throw e
  end.

(** [try { c } catch { h }] *)
Definition try_catch {A} (c : Result A) (h : JsError -> Result A) : Result A :=
  match c with
  | Ok a => Ok a
  | Throw e => h e
  end.

Notation "'let*' x ':=' c 'in' k" := (bind c (fun x => k))
  (at level 10, x name, c at level 100, k at level 200).

(** ** Responses

    The object the transport returns: the status code, the declared
    [Content-Type] header ([None] when [headers.get] returns [null]) and the
    four body-reading operations, each of which yields a payload or throws.
    A field is the completion of the call the code makes of that reader. The
    code calls one reader on an accepted response; on a rejected one it
    calls [text()] only after [json()] has rejected, and a host response
    whose body [json()] has read rejects that call, so that for a rejected
    response with a body that is not JSON both [r_json] and [r_text] throw. *)
Record Response : Type := mkResponse {
  r_status : Z;
  r_contentType : option string;
  r_json : Result Json;
  r_text : Result string;
  r_blob : Result string;
  r_arrayBuffer : Result string
}.

Definition response_json (r : Response) : Result Payload :=
  let* v := r_json r in Ok (PJson v).
Definition response_text (r : Response) : Result Payload :=
  let* s := r_text r in Ok (PText s).
Definition response_blob (r : Response) : Result Payload :=
  let* b := r_blob r in Ok (PBlob b).
Definition response_arrayBuffer (r : Response) : Result Payload :=
  let* b := r_arrayBuffer r in Ok (PArrayBuffer b).

(** [h || d] for [h] a string, [undefined] or [null]. *)
Definition or_string (h : option string) (d : string) : string :=
  match h with
  | Some s => if truthy_string s then s else d
  | None => d
  end.

(** ** Helper functions of fetch.js *)

(** The branch [parseResponse] takes. *)
Inductive Decoder : Type := AsJson | AsText | AsBlob | AsArrayBuffer.

Definition selectDecoder (contentType : option string) (responseType : string)
  : Decoder :=
  let type :=
    if String.eqb responseType "auto"
    then or_string contentType EmptyString
    else responseType in
  if includes type "json" || String.eqb responseType "json" then AsJson
  else if includes type "text" || String.eqb responseType "text" then AsText
  else if includes type "octet-stream" || String.eqb responseType "blob" then AsBlob
  else AsArrayBuffer.

Definition decode (d : Decoder) (response : Response) : Result Payload :=
  match d with
  | AsJson => response_json response
  | AsText => response_text response
  | AsBlob => response_blob response
  | AsArrayBuffer => response_arrayBuffer response
  end.

Definition parseResponse (response : Response) (responseType : string)
  : Result Payload :=
  decode (selectDecoder (r_contentType response) responseType) response.

Definition parseErrorResponse (response : Response) : Result Payload :=
  try_catch (response_json response) (fun _ =>
    try_catch (response_text response) (fun _ =>
      Ok PNull)).

(** [error.status && error.status >= 400 && error.status < 500] *)
Definition status_is_client_error (s : option Z) : bool :=
  match s with
  | None => false
  | Some n => negb (n =? 0) && (400 <=? n) && (n <? 500)
  end.

Definition isFatalError (error : JsError) : bool :=
  String.eqb (e_name error) "AbortError"
  || e_isTypeError error
  || status_is_client_error (e_status error).

(** [new FetchError(message, status, data)]; the class extends [Error], so
    an instance is not a [TypeError]. *)
Definition FetchError (msg : string) (st : Z) (d : Payload) : JsError :=
  {| e_name := "FetchError"; e_isTypeError := false; e_message := msg;
     e_status := Some st; e_data := Some d;
     e_url := None; e_method := None; e_attempt := None |}.

Record ErrorContext : Type := mkContext {
  ctx_url : string;
  ctx_method : string;
  ctx_attempt : nat
}.

Definition enhanceError (error : JsError) (context : ErrorContext) : JsError :=
  {| e_name := e_name error; e_isTypeError := e_isTypeError error;
     e_message := e_message error; e_status := e_status error;
     e_data := e_data error;
     e_url := Some (ctx_url context);
     e_method := Some (ctx_method context);
     e_attempt := Some (ctx_attempt context) |}.

(** ** Query strings: the host's [URL] and [URLSearchParams]

    These definitions follow the application/x-www-form-urlencoded
    serializer and parser of the URL standard, which [searchParams.append]
    and [URL.prototype.toString] run. *)

(** Bytes the serializer leaves as they are: ASCII alphanumerics and
    [*], [-], [.], [_]. *)
Definition urlencoded_unreserved (c : ascii) : bool :=
  let n := N_of_ascii c in
  ((48 <=? n) && (n <=? 57) || (65 <=? n) && (n <=? 90)
   || (97 <=? n) && (n <=? 122)
   || (n =? 42) || (n =? 45) || (n =? 46) || (n =? 95))%N.

Definition hex_digit (n : N) : ascii :=
  if (n <? 10)%N then ascii_of_N (48 + n) else ascii_of_N (55 + n).

Definition hex_value (c : ascii) : option N :=
  let n := N_of_ascii c in
  if ((48 <=? n) && (n <=? 57))%N then Some (n - 48)%N
  else if ((65 <=? n) && (n <=? 70))%N then Some (n - 55)%N
  else if ((97 <=? n) && (n <=? 102))%N then Some (n - 87)%N
  else None.

Definition urlencode_byte (c : ascii) : string :=
  if Ascii.eqb c " " then "+"
  else if urlencoded_unreserved c then String c EmptyString
  else let n := N_of_ascii c in
       String "%" (String (hex_digit (n / 16)) (String (hex_digit (n mod 16)) EmptyString)).

Fixpoint urlencode (s : string) : string :=
  match s with
  | EmptyString => EmptyString
  | String c r => urlencode_byte c ++ urlencode r
  end.

Definition serialize_pair (p : string * string) : string :=
  urlencode (fst p) ++ "=" ++ urlencode (snd p).

Fixpoint join_amp (l : list string) : string :=
  match l with
  | [] => EmptyString
  | [x] => x
  | x :: r => x ++ "&" ++ join_amp r
  end.

Definition urlencoded_serialize (l : list (string * string)) : string :=
  join_amp (map serialize_pair l).

Fixpoint split_on (sep : ascii) (s : string) : list string :=
  match s with
  | EmptyString => [EmptyString]
  | String c r =>
      if Ascii.eqb c sep then EmptyString :: split_on sep r
      else match split_on sep r with
           | [] => [String c EmptyString]
           | h :: t => String c h :: t
           end
  end.

(** The part before the first [sep] and the part after it. *)
Fixpoint split_first (sep : ascii) (s : string) : option (string * string) :=
  match s with
  | EmptyString => None
  | String c r =>
      if Ascii.eqb c sep then Some (EmptyString, r)
      else match split_first sep r with
           | Some (a, b) => Some (String c a, b)
           | None => None
           end
  end.

Fixpoint plus_to_space (s : string) : string :=
  match s with
  | EmptyString => EmptyString
  | String c r => String (if Ascii.eqb c "+" then " "%char else c) (plus_to_space r)
  end.

Fixpoint percent_decode (s : string) : string :=
  match s with
  | EmptyString => EmptyString
  | String c r =>
      if Ascii.eqb c "%" then
        match r with
        | String h (String l r') =>
            match hex_value h, hex_value l with
            | Some a, Some b => String (ascii_of_N (16 * a + b)) (percent_decode r')
            | _, _ => String c (percent_decode r)
            end
        | _ => String c (percent_decode r)
        end
      else String c (percent_decode r)
  end.

Definition urldecode (s : string) : string := percent_decode (plus_to_space s).

Definition parse_pair (s : string) : string * string :=
  match split_first "=" s with
  | Some (n, v) => (urldecode n, urldecode v)
  | None => (urldecode s, EmptyString)
  end.

(** The parser: split on [&], drop empty pieces, split each piece at its
    first [=], turn [+] into a space and percent-decode. The final UTF-8
    decoding of names and values is the identity on byte strings. *)
Definition urlencoded_parse (s : string) : list (string * string) :=
  map parse_pair (filter (fun x => truthy_string x) (split_on "&" s)).

(** The URL record the host's parser makes of the string handed to
    [new URL], in the parser's own normal form: the serialization of
    everything before the query, the query (without [?], percent-encoded as
    the parser leaves it) and the fragment (without [#]). The parsing
    itself, which normalises the string and throws on one that is not an
    absolute URL, is the host's and is not modelled. *)
Record Locator : Type := mkLocator {
  l_base : string;
  l_query : option string;
  l_fragment : option string
}.

(** A [URL] object together with its [searchParams] list. *)
Record URL : Type := mkURL {
  u_base : string;
  u_query : option string;
  u_fragment : option string;
  u_searchParams : list (string * string)
}.

(** The [URL] object of a parsed locator; its [searchParams] are the pairs
    of the query. *)
Definition new_URL (url : Locator) : URL :=
  {| u_base := l_base url;
     u_query := l_query url;
     u_fragment := l_fragment url;
     u_searchParams := urlencoded_parse (default EmptyString (l_query url)) |}.

(** [u.searchParams.append(name, value)]: extend the list, then run the
    update steps, which write the serialized list back as the query (an
    empty serialization clears it). *)
Definition searchParams_append (name value : string) (u : URL) : URL :=
  let l := (u_searchParams u ++ [(name, value)])%list in
  let serialized := urlencoded_serialize l in
  {| u_base := u_base u;
     u_query := if truthy_string serialized then Some serialized else None;
     u_fragment := u_fragment u;
     u_searchParams := l |}.

(** [u.toString()] *)
Definition toString (u : URL) : string :=
  u_base u
  ++ match u_query u with Some q => "?" ++ q | None => EmptyString end
  ++ match u_fragment u with Some f => "#" ++ f | None => EmptyString end.

(** The scalars a query object holds. *)
Inductive QueryValue : Type :=
| QUndefined
| QNull
| QBool (b : bool)
| QNumber (z : Z)
| QString (s : string).

Definition is_undefined (v : QueryValue) : bool :=
  match v with QUndefined => true | _ => false end.

(** The string conversion [append] applies to its argument; a number is an
    integer that JavaScript prints in plain decimal notation. *)
Definition ToString (v : QueryValue) : string :=
  match v with
  | QUndefined => "undefined"
  | QNull => "null"
  | QBool true => "true"
  | QBool false => "false"
  | QNumber z => string_of_Z z
  | QString s => s
  end.

(** ** Request configuration *)

(** An abort signal: one the caller supplied, or the one
    [AbortSignal.timeout] creates. *)
Inductive Signal : Type :=
| ExternalSignal (id : nat)
| TimeoutSignal (ms : Z).

(** A request body: [null], a string, a plain object or array, a
    [FormData] container, or another binary object ([Blob], [ArrayBuffer]). *)
Inductive Body : Type :=
| BodyNull
| BodyString (s : string)
| BodyObject (o : Json)
| BodyFormData (entries : list (string * string))
| BodyBinary (bytes : string).

Definition truthy_body (b : Body) : bool :=
  match b with
  | BodyNull => false
  | BodyString s => truthy_string s
  | BodyObject _ | BodyFormData _ | BodyBinary _ => true
  end.

(** [typeof body === 'object'] *)
Definition typeof_object (b : Body) : bool :=
  match b with
  | BodyString _ => false
  | BodyNull | BodyObject _ | BodyFormData _ | BodyBinary _ => true
  end.

Definition instanceof_FormData (b : Body) : bool :=
  match b with
  | BodyFormData _ => true
  | _ => false
  end.

(** The second argument of [fetchEnhanced]; [query] lists the entries in
    the order [Object.entries] yields them. *)
Record RequestConfig : Type := mkConfig {
  method : string;
  headers : gmap string string;
  body : Body;
  query : list (string * QueryValue);
  retries : nat;
  retryDelay : Z;
  timeout : Z;
  responseType : string;
  validateStatus : Z -> bool;
  debug : bool;
  signal : option Signal
}.

(** The defaults of the destructuring pattern. *)
Definition default_config : RequestConfig :=
  {| method := "GET"; headers := ∅; body := BodyNull; query := [];
     retries := 3; retryDelay := 1000; timeout := 8000;
     responseType := "auto";
     validateStatus := fun status => (200 <=? status) && (status <? 300);
     debug := false; signal := None |}.

(** The [options] object handed to [fetch]; [o_body = None] when the
    property is never assigned. *)
Record RequestInit : Type := mkInit {
  o_method : string;
  o_headers : gmap string string;
  o_signal : option Signal;
  o_body : option Body
}.

(** ** The host *)

(** [JSON.stringify] and the transport. [fetch n url options] is the
    completion of the [n]-th call (counted from 1) made for one logical
    request. *)
Class Host : Type := {
  JSON_stringify : Body -> string;
  fetch : nat -> string -> RequestInit -> Result Response
}.

(** What a run does, in order: a call of [fetch], recorded with the value
    the [attempt] counter has when it is made, or a call of [wait]. *)
Inductive Event : Type :=
| EvFetch (attempt : nat) (url : string) (options : RequestInit)
| EvWait (ms : Z).

(** How a call ends: a returned value or a thrown one ([Thrown None] is
    [throw null]). *)
Inductive Outcome : Type :=
| Returned (p : Payload)
| Thrown (e : option JsError).

Definition wait (ms : Z) : Event := EvWait ms.

(** [retryDelay * Math.pow(2, attempt - 1)] *)
Definition backoff (retryDelay : Z) (attempt : nat) : Z :=
  retryDelay * 2 ^ (Z.of_nat attempt - 1).

(** ** fetchEnhanced (fetch.js) *)

(** Lines 18-23: the query entries that are not [undefined] are appended. *)
Definition build_finalUrl (url : Locator) (query : list (string * QueryValue)) : URL :=
  fold_left
    (fun finalUrl kv =>
       if negb (is_undefined (snd kv))
       then searchParams_append (fst kv) (ToString (snd kv)) finalUrl
       else finalUrl)
    query (new_URL url).

Definition method_has_no_body (m : string) : bool :=
  existsb (String.eqb m) ["GET"; "HEAD"].

(** Lines 26-40. *)
Definition build_options `{Host} (cfg : RequestConfig) : RequestInit :=
  let options :=
    {| o_method := toUpperCase (method cfg);
       o_headers := headers cfg;
       o_signal :=
         match signal cfg with
         | Some sg => Some sg
         | None => if negb (timeout cfg =? 0)
                   then Some (TimeoutSignal (timeout cfg)) else None
         end;
       o_body := None |} in
  if truthy_body (body cfg) && negb (method_has_no_body (o_method options)) then
    if typeof_object (body cfg) && negb (instanceof_FormData (body cfg)) then
      {| o_method := o_method options;
         o_headers :=
           <["Content-Type" :=
               or_string (o_headers options !! "Content-Type") "application/json"]>
             (o_headers options);
         o_signal := o_signal options;
         o_body := Some (BodyString (JSON_stringify (body cfg))) |}
    else
      {| o_method := o_method options;
         o_headers := o_headers options;
         o_signal := o_signal options;
         o_body := Some (body cfg) |}
  else options.

(** The body of the [try] block, lines 55-68. *)
Definition attempt_body `{Host} (cfg : RequestConfig) (finalUrl : URL)
    (options : RequestInit) (attempt : nat) : Result Payload :=
  let* response := fetch attempt (toString finalUrl) options in
  if negb (validateStatus cfg (r_status response)) then
    let* errorData := parseErrorResponse response in
    Throw (FetchError
             ("Request failed with status " ++ string_of_Z (r_status response))
             (r_status response) errorData)
  else parseResponse response (responseType cfg).

(** The [while] loop, lines 45-90, entered with the current values of
    [attempt] and [lastError]. *)
Equations? attempt_loop `{Host} (cfg : RequestConfig) (finalUrl : URL)
    (options : RequestInit) (attempt : nat) (lastError : option JsError)
  : Outcome * list Event by wf (S (retries cfg) - attempt)%nat lt :=
attempt_loop cfg finalUrl options attempt lastError
    with Logic.inspect (attempt <=? retries cfg)%nat := {
  | exist _ true Hcond =>
      let attempt' := S attempt in
      let request := EvFetch attempt' (toString finalUrl) options in
      match attempt_body cfg finalUrl options attempt' with
      | Ok value => (Returned value, [request])
      | Throw error =>
          if (attempt' <=? retries cfg)%nat && negb (isFatalError error) then
            let rest := attempt_loop cfg finalUrl options attempt' (Some error) in
            (fst rest,
             request :: wait (backoff (retryDelay cfg) attempt') :: snd rest)
          else
            (Thrown (Some (enhanceError error
                             {| ctx_url := toString finalUrl;
                                ctx_method := method cfg;
                                ctx_attempt := attempt' |})),
             [request])
      end
  | exist _ false Hcond => (Thrown lastError, []) }.
Proof.
  apply Nat.leb_le in Hcond. lia.
Qed.

Definition fetchEnhanced `{Host} (url : Locator) (cfg : RequestConfig)
  : Outcome * list Event :=
  let finalUrl := build_finalUrl url (query cfg) in
  let options := build_options cfg in
  attempt_loop cfg finalUrl options 0 None.

(** ** The variant of the guide (part_000)

    [isFatalError], [wait], [FetchError], [enhanceError] and the query
    handling are the same text in both files and are shared; the
    definitions below are the ones whose text differs. *)
Module Guide.

Definition parseResponse (response : Response) (responseType : string)
  : Result Payload :=
  let contentType := or_string (r_contentType response) EmptyString in
  let type := if String.eqb responseType "auto" then contentType else responseType in
  if includes type "json" || String.eqb responseType "json" then
    response_json response
  else if includes type "text" || String.eqb responseType "text" then
    response_text response
  else if includes type "octet-stream" || String.eqb responseType "blob" then
    response_blob response
  else response_arrayBuffer response.

Definition parseErrorResponse (response : Response) : Result Payload :=
  try_catch (response_json response) (fun _ =>
    try_catch (response_text response) (fun _ =>
      Ok (PText ("Failed to parse error response (status: "
                 ++ string_of_Z (r_status response) ++ ")")))).

(** [!options.headers['Content-Type']] *)
Definition header_missing (h : option string) : bool :=
  match h with
  | Some s => negb (truthy_string s)
  | None => true
  end.

Definition build_options `{Host} (cfg : RequestConfig) : RequestInit :=
  let options :=
    {| o_method := toUpperCase (method cfg);
       o_headers := headers cfg;
       o_signal :=
         match signal cfg with
         | Some sg => Some sg
         | None => if negb (timeout cfg =? 0)
                   then Some (TimeoutSignal (timeout cfg)) else None
         end;
       o_body := None |} in
  if truthy_body (body cfg) && negb (method_has_no_body (o_method options)) then
    if typeof_object (body cfg) && negb (instanceof_FormData (body cfg)) then
      {| o_method := o_method options;
         o_headers :=
           if header_missing (o_headers options !! "Content-Type")
           then <["Content-Type" := "application/json"]> (o_headers options)
           else o_headers options;
         o_signal := o_signal options;
         o_body := Some (BodyString (JSON_stringify (body cfg))) |}
    else
      {| o_method := o_method options;
         o_headers := o_headers options;
         o_signal := o_signal options;
         o_body := Some (body cfg) |}
  else options.

Definition attempt_body `{Host} (cfg : RequestConfig) (finalUrl : URL)
    (options : RequestInit) (attempt : nat) : Result Payload :=
  let* response := fetch attempt (toString finalUrl) options in
  if negb (validateStatus cfg (r_status response)) then
    let* errorData := parseErrorResponse response in
    Throw (FetchError
             ("Request failed with status " ++ string_of_Z (r_status response))
             (r_status response) errorData)
  else parseResponse response (responseType cfg).

Equations? guide_attempt_loop `{Host} (cfg : RequestConfig) (finalUrl : URL)
    (options : RequestInit) (attempt : nat) (lastError : option JsError)
  : Outcome * list Event by wf (S (retries cfg) - attempt)%nat lt :=
guide_attempt_loop cfg finalUrl options attempt lastError
    with Logic.inspect (attempt <=? retries cfg)%nat := {
  | exist _ true Hcond =>
      let attempt' := S attempt in
      let request := EvFetch attempt' (toString finalUrl) options in
      match attempt_body cfg finalUrl options attempt' with
      | Ok value => (Returned value, [request])
      | Throw error =>
          if (attempt' <=? retries cfg)%nat && negb (isFatalError error) then
            let delay := backoff (retryDelay cfg) attempt' in
            let rest := guide_attempt_loop cfg finalUrl options attempt' (Some error) in
            (fst rest, request :: wait delay :: snd rest)
          else
            (Thrown (Some (enhanceError error
                             {| ctx_url := toString finalUrl;
                                ctx_method := o_method options;
                                ctx_attempt := attempt' |})),
             [request])
      end
  | exist _ false Hcond => (Thrown lastError, []) }.
Proof.
  apply Nat.leb_le in Hcond. lia.
Qed.

Definition fetchEnhanced `{Host} (url : Locator) (cfg : RequestConfig)
  : Outcome * list Event :=
  let finalUrl := build_finalUrl url (query cfg) in
  let options := build_options cfg in
  guide_attempt_loop cfg finalUrl options 0 None.

End Guide.

(** ** Observations on a run *)

(** The attempt numbers of the requests issued, in order. *)
Definition fetch_numbers (evs : list Event) : list nat :=
  omap (fun ev => match ev with EvFetch n _ _ => Some n | EvWait _ => None end) evs.

(** How many times the request was issued. *)
Definition attempts_made (evs : list Event) : nat :=
  length (fetch_numbers evs).

(** The delays slept, in order. *)
Definition delays (evs : list Event) : list Z :=
  omap (fun ev => match ev with EvWait ms => Some ms | EvFetch _ _ _ => None end) evs.

(** [count] failed attempts, numbered from [from], each followed by its
    backoff sleep. *)
Fixpoint retry_schedule (u : string) (o : RequestInit) (retryDelay : Z)
    (from count : nat) : list Event :=
  match count with
  | O => []
  | S k =>
      EvFetch from u o :: wait (backoff retryDelay from)
        :: retry_schedule u o retryDelay (S from) k
  end.

(** Attempt [n] of the call ends in an error that is not fatal. *)
Definition attempt_fails_retryably `{Host} (url : Locator) (cfg : RequestConfig)
    (n : nat) : Prop :=
  exists e,
    attempt_body cfg (build_finalUrl url (query cfg)) (build_options cfg) n = Throw e
    /\ isFatalError e = false.

(** The response of attempt [n] fails the status validator. *)
Definition attempt_is_rejected `{Host} (url : Locator) (cfg : RequestConfig)
    (n : nat) (response : Response) : Prop :=
  fetch n (toString (build_finalUrl url (query cfg))) (build_options cfg) = Ok response
  /\ validateStatus cfg (r_status response) = false.

(** [json()] reads the body of the response. *)
Definition reads_as_json (response : Response) : Prop :=
  exists v, r_json response = Ok v.

(** Two outcomes are the same result: the same value, or errors that agree
    on status, data, url, method and attempt. *)
Definition same_result (o1 o2 : Outcome) : Prop :=
  match o1, o2 with
  | Returned p1, Returned p2 => p1 = p2
  | Thrown (Some e1), Thrown (Some e2) =>
      e_status e1 = e_status e2 /\ e_data e1 = e_data e2
      /\ e_url e1 = e_url e2 /\ e_method e1 = e_method e2
      /\ e_attempt e1 = e_attempt e2
  | Thrown None, Thrown None => True
  | _, _ => False
  end.

(** Two errors agree on everything but their [data]. *)
Definition agree_except_data (e1 e2 : JsError) : Prop :=
  e_name e1 = e_name e2 /\ e_isTypeError e1 = e_isTypeError e2
  /\ e_message e1 = e_message e2 /\ e_status e1 = e_status e2
  /\ e_url e1 = e_url e2 /\ e_method e1 = e_method e2
  /\ e_attempt e1 = e_attempt e2.

(** Every response the transport returns for [u] and [options] that the
    validator rejects has a body that [json()] reads. *)
Definition rejections_read_as_json `{Host} (cfg : RequestConfig) (u : string)
    (options : RequestInit) : Prop :=
  forall n response,
    fetch n u options = Ok response ->
    validateStatus cfg (r_status response) = false ->
    reads_as_json response.

(** Two outcomes are the same value, or errors enriched at the same attempt
    with the same URL (and methods [m1] and [m2]) that agree on everything
    but their data, and on their data too under [same_data]. *)
Definition outcomes_agree (same_data : Prop) (u m1 m2 : string)
    (o1 o2 : Outcome) : Prop :=
  match o1, o2 with
  | Returned p1, Returned p2 => p1 = p2
  | Thrown (Some e1), Thrown (Some e2) =>
      exists e1' e2' n,
        e1 = enhanceError e1' {| ctx_url := u; ctx_method := m1; ctx_attempt := n |}
        /\ e2 = enhanceError e2' {| ctx_url := u; ctx_method := m2; ctx_attempt := n |}
        /\ agree_except_data e1' e2'
        /\ (same_data -> e1' = e2')
  | _, _ => False
  end.

(** The query entries that are not [undefined], converted to strings. *)
Definition defined_entries (query : list (string * QueryValue))
  : list (string * string) :=
  omap (fun kv => if is_undefined (snd kv) then None
                  else Some (fst kv, ToString (snd kv))) query.

(** The byte [c] occurs in [s]. *)
Fixpoint contains_char (c : ascii) (s : string) : bool :=
  match s with
  | EmptyString => false
  | String c' r => Ascii.eqb c' c || contains_char c r
  end.

(** No byte of [s] is one of the delimiters of a URL's query:
    [&], [=], [#] and [?] never occur, nor does a raw space. *)
Fixpoint query_safe (s : string) : bool :=
  match s with
  | EmptyString => true
  | String c r =>
      (urlencoded_unreserved c || Ascii.eqb c "+" || Ascii.eqb c "%")
      && query_safe r
  end.

(** ** Sample hosts for closed examples *)

Definition quote : ascii := ascii_of_N 34.
Definition backslash : ascii := ascii_of_N 92.

Fixpoint escape_string (s : string) : string :=
  match s with
  | EmptyString => EmptyString
  | String c r =>
      if Ascii.eqb c quote || Ascii.eqb c backslash
      then String backslash (String c (escape_string r))
      else String c (escape_string r)
  end.

Definition quoted (s : string) : string :=
  String quote (escape_string s ++ String quote EmptyString).

Fixpoint join_comma (l : list string) : string :=
  match l with
  | [] => EmptyString
  | [x] => x
  | x :: r => x ++ "," ++ join_comma r
  end.

(** A compact JSON printer for integers, booleans, strings without control
    characters, arrays and objects; it stands in for [JSON.stringify] in the
    closed examples only. *)
Fixpoint json_text (j : Json) : string :=
  match j with
  | JNull => "null"
  | JBool true => "true"
  | JBool false => "false"
  | JNumber z => string_of_Z z
  | JString s => quoted s
  | JArray items => "[" ++ join_comma (map json_text items) ++ "]"
  | JObject fields =>
      "{" ++ join_comma (map (fun kv => quoted (fst kv) ++ ":" ++ json_text (snd kv))
                             fields) ++ "}"
  end.

(** An object without enumerable properties of its own, such as a [Blob]
    or a [FormData], prints as an empty object. *)
Definition sample_stringify (b : Body) : string :=
  match b with
  | BodyNull => "null"
  | BodyString s => quoted s
  | BodyObject o => json_text o
  | BodyFormData _ | BodyBinary _ => "{}"
  end.

(** A host whose transport answers every call with the same completion. *)
Definition constant_host (c : Result Response) : Host :=
  {| JSON_stringify := sample_stringify; fetch := fun _ _ _ => c |}.

(** A host whose transport follows a script, and fails with a network
    hiccup once the script is exhausted. *)
Definition generic_error (nm : string) : JsError :=
  {| e_name := nm; e_isTypeError := false; e_message := EmptyString;
     e_status := None; e_data := None;
     e_url := None; e_method := None; e_attempt := None |}.

Definition scripted_host (script : list (Result Response)) : Host :=
  {| JSON_stringify := sample_stringify;
     fetch := fun n _ _ => nth (n - 1) script (Throw (generic_error "Error")) |}.

(** A response with the given status whose body is not JSON but reads as
    text. *)
Definition text_response (st : Z) (ct : option string) (txt : string) : Response :=
  {| r_status := st; r_contentType := ct;
     r_json := Throw (generic_error "SyntaxError");
     r_text := Ok txt; r_blob := Ok txt; r_arrayBuffer := Ok txt |}.

(** A response none of whose body readers succeeds. *)
Definition unreadable_response (st : Z) : Response :=
  {| r_status := st; r_contentType := None;
     r_json := Throw (generic_error "SyntaxError");
     r_text := Throw (generic_error "Error");
     r_blob := Throw (generic_error "Error");
     r_arrayBuffer := Throw (generic_error "Error") |}.

Definition sample_locator : Locator :=
  {| l_base := "https://api.example.com/data";
     l_query := None; l_fragment := None |}.

(** [{ method: 'GET', body: { name: 'John' } }] *)
Definition sample_get_config : RequestConfig :=
  {| method := "GET"; headers := ∅;
     body := BodyObject (JObject [("name", JString "John")]);
     query := [];
     retries := 3; retryDelay := 1000; timeout := 8000;
     responseType := "auto";
     validateStatus := fun status => (200 <=? status) && (status <? 300);
     debug := false; signal := None |}.

(** [{ method: 'put', headers: { 'Content-Type': 'text/plain' },
       body: { name: 'John' } }] *)
Definition sample_put_config : RequestConfig :=
  {| method := "put"; headers := {[ "Content-Type" := "text/plain" ]};
     body := BodyObject (JObject [("name", JString "John")]);
     query := [];
     retries := 3; retryDelay := 1000; timeout := 8000;
     responseType := "auto";
     validateStatus := fun status => (200 <=? status) && (status <? 300);
     debug := false; signal := None |}.

(** [{ method: 'post', body: { name: 'John' }, retries: 0 }] *)
Definition sample_post_config : RequestConfig :=
  {| method := "post"; headers := ∅;
     body := BodyObject (JObject [("name", JString "John")]);
     query := [];
     retries := 0; retryDelay := 1000; timeout := 8000;
     responseType := "auto";
     validateStatus := fun status => (200 <=? status) && (status <? 300);
     debug := false; signal := None |}.

(** The reason of a signal made by [AbortSignal.timeout] once its time
    has passed: a [DOMException] named [TimeoutError]. *)
Definition timeout_error : JsError :=
  {| e_name := "TimeoutError"; e_isTypeError := false;
     e_message := "The operation was aborted due to timeout";
     e_status := None; e_data := None;
     e_url := None; e_method := None; e_attempt := None |}.

(** The [TypeError] that [fetch] throws when the network fails. *)
Definition network_error : JsError :=
  {| e_name := "TypeError"; e_isTypeError := true;
     e_message := "Failed to fetch";
     e_status := None; e_data := None;
     e_url := None; e_method := None; e_attempt := None |}.

(** A host whose server does not answer in time: a call made with a
    timeout signal is rejected with the reason of that signal, when its time
    has passed and at once on every later call, the signal staying aborted;
    a call made without one fails as the network does. *)
Definition timed_out_host : Host :=
  {| JSON_stringify := sample_stringify;
     fetch := fun _ _ options =>
       match o_signal options with
       | Some (TimeoutSignal _) => Throw timeout_error
       | _ => Throw network_error
       end |}.

(** A response with status [st] that declares JSON and whose body is the
    JSON value [v]. *)
Definition json_response (st : Z) (v : Json) : Response :=
  {| r_status := st; r_contentType := Some "application/json";
     r_json := Ok v;
     r_text := Ok (json_text v); r_blob := Ok (json_text v);
     r_arrayBuffer := Ok (json_text v) |}.

(** [{ retries: 0 }] *)
Definition sample_single_config : RequestConfig :=
  {| method := "GET"; headers := ∅; body := BodyNull; query := [];
     retries := 0; retryDelay := 1000; timeout := 8000;
     responseType := "auto";
     validateStatus := fun status => (200 <=? status) && (status <? 300);
     debug := false; signal := None |}.

(** [{ method: 'POST', headers: { Accept: 'text/html' }, body: 'a=1' }] *)
Definition sample_string_config : RequestConfig :=
  {| method := "POST"; headers := {[ "Accept" := "text/html" ]};
     body := BodyString "a=1";
     query := [];
     retries := 3; retryDelay := 1000; timeout := 8000;
     responseType := "auto";
     validateStatus := fun status => (200 <=? status) && (status <? 300);
     debug := false; signal := None |}.

(** [{ method: 'POST', headers: { 'Content-Type': '' }, body: {} }],
    with a signal of the caller and the timeout switched off *)
Definition sample_signal_config : RequestConfig :=
  {| method := "POST"; headers := {[ "Content-Type" := EmptyString ]};
     body := BodyObject (JObject []);
     query := [];
     retries := 3; retryDelay := 1000; timeout := 0;
     responseType := "auto";
     validateStatus := fun status => (200 <=? status) && (status <? 300);
     debug := false; signal := Some (ExternalSignal 7) |}.

(** * Properties *)

(** ** Response classification *)

Lemma parseResponse_decode (response : Response) (responseType : string) :
  Guide.parseResponse response responseType = parseResponse response responseType.
Proof.
  unfold Guide.parseResponse, parseResponse, selectDecoder.
  repeat match goal with |- context [if ?b then _ else _] => destruct b end;
    reflexivity.
Qed.

(** C7: with [responseType = 'auto'] the decoder follows the declared
    content type (the empty string when the header is absent), first match
    first: a type containing [json] is read as JSON, otherwise one containing
    [text] as text, otherwise one containing [octet-stream] as a blob,
    otherwise the body is read as a byte buffer. An explicit ['blob'] request
    reads a blob. In particular [application/json] is read as JSON and
    [text/plain] as text. *)
Theorem C7_auto_decoding_precedence (response : Response) :
  let ct := or_string (r_contentType response) EmptyString in
  parseResponse response "auto" =
    (if includes ct "json" then response_json response
     else if includes ct "text" then response_text response
     else if includes ct "octet-stream" then response_blob response
     else response_arrayBuffer response)
  /\ parseResponse response "blob" = response_blob response
  /\ (r_contentType response = Some "application/json" ->
      parseResponse response "auto" = response_json response)
  /\ (r_contentType response = Some "text/plain" ->
      parseResponse response "auto" = response_text response).
Proof.
  cbv zeta. unfold parseResponse, selectDecoder. repeat split.
  - change (String.eqb "auto" "auto") with true. cbv iota.
    change (String.eqb "auto" "json") with false.
    change (String.eqb "auto" "text") with false.
    change (String.eqb "auto" "blob") with false.
    rewrite !orb_false_r.
    repeat match goal with |- context [if ?b then _ else _] => destruct b end;
      reflexivity.
  - intros ->. reflexivity.
  - intros ->. reflexivity.
Qed.

Lemma C7_auto_decoding_witness :
  parseResponse
    (mkResponse 200 (Some "application/json") (Ok (JNumber 1))
       (Ok "1") (Ok "1") (Ok "1")) "auto" = Ok (PJson (JNumber 1))
  /\ parseResponse (text_response 200 (Some "text/plain") "hi") "auto"
     = Ok (PText "hi").
Proof.
  split.
  - exact (proj1 (proj2 (proj2
      (C7_auto_decoding_precedence
         (mkResponse 200 (Some "application/json") (Ok (JNumber 1))
            (Ok "1") (Ok "1") (Ok "1"))))) eq_refl).
  - exact (proj2 (proj2 (proj2
      (C7_auto_decoding_precedence
         (text_response 200 (Some "text/plain") "hi")))) eq_refl).
Defined.

Lemma parseErrorResponse_total (response : Response) :
  parseErrorResponse response =
    Ok (match r_json response with
        | Ok v => PJson v
        | Throw _ =>
            match r_text response with
            | Ok s => PText s
            | Throw _ => PNull
            end
        end).
Proof.
  unfold parseErrorResponse, response_json, response_text, try_catch, bind.
  destruct (r_json response); [reflexivity|].
  destruct (r_text response); reflexivity.
Qed.

Lemma Guide_parseErrorResponse_total (response : Response) :
  Guide.parseErrorResponse response =
    Ok (match r_json response with
        | Ok v => PJson v
        | Throw _ =>
            match r_text response with
            | Ok s => PText s
            | Throw _ =>
                PText ("Failed to parse error response (status: "
                       ++ string_of_Z (r_status response) ++ ")")
            end
        end).
Proof.
  unfold Guide.parseErrorResponse, response_json, response_text, try_catch, bind.
  destruct (r_json response); [reflexivity|].
  destruct (r_text response); reflexivity.
Qed.

(** C8: [parseErrorResponse] never throws. In both files it completes
    normally on every response: with the JSON value when the body reads as
    JSON, otherwise with the text when the body reads as text, and otherwise
    with a placeholder, which is [null] in fetch.js and a descriptive string
    in the guide. *)
Theorem C8_parseErrorResponse_never_throws (response : Response) :
  (exists payload,
     parseErrorResponse response = Ok payload
     /\ payload = match r_json response with
                  | Ok v => PJson v
                  | Throw _ =>
                      match r_text response with
                      | Ok s => PText s
                      | Throw _ => PNull
                      end
                  end)
  /\ (exists payload,
        Guide.parseErrorResponse response = Ok payload
        /\ payload = match r_json response with
                     | Ok v => PJson v
                     | Throw _ =>
                         match r_text response with
                         | Ok s => PText s
                         | Throw _ =>
                             PText ("Failed to parse error response (status: "
                                    ++ string_of_Z (r_status response) ++ ")")
                         end
                     end).
Proof.
  split; eexists; split; try reflexivity.
  - apply parseErrorResponse_total.
  - apply Guide_parseErrorResponse_total.
Qed.

(** ** Fatal errors *)

Lemma status_is_client_error_spec (st : Z) :
  status_is_client_error (Some st) = true <-> 400 <= st < 500.
Proof.
  unfold status_is_client_error.
  rewrite !andb_true_iff, negb_true_iff, Z.eqb_neq, Z.leb_le, Z.ltb_lt. lia.
Qed.

Lemma isFatalError_FetchError (msg : string) (st : Z) (d : Payload) :
  isFatalError (FetchError msg st d) = true <-> 400 <= st < 500.
Proof.
  unfold isFatalError. cbn. apply status_is_client_error_spec.
Qed.

Lemma isFatalError_AbortError (e : JsError) :
  e_name e = "AbortError" -> isFatalError e = true.
Proof.
  intros Hn. unfold isFatalError. rewrite Hn. reflexivity.
Qed.

Lemma isFatalError_enhanceError (e : JsError) (ctx : ErrorContext) :
  isFatalError (enhanceError e ctx) = isFatalError e.
Proof. reflexivity. Qed.

(** ** The retry loop *)

Lemma fetch_numbers_app (l1 l2 : list Event) :
  fetch_numbers (l1 ++ l2) = (fetch_numbers l1 ++ fetch_numbers l2)%list.
Proof. apply omap_app. Qed.

Lemma delays_app (l1 l2 : list Event) :
  delays (l1 ++ l2) = (delays l1 ++ delays l2)%list.
Proof. apply omap_app. Qed.

Lemma fetch_numbers_retry_schedule u o d (from count : nat) :
  fetch_numbers (retry_schedule u o d from count) = seq from count.
Proof.
  revert from. induction count as [|k IH]; intros from; [reflexivity|].
  cbn. f_equal. apply IH.
Qed.

Lemma delays_retry_schedule u o d (from count : nat) :
  delays (retry_schedule u o d from count) = map (backoff d) (seq from count).
Proof.
  revert from. induction count as [|k IH]; intros from; [reflexivity|].
  cbn. f_equal. apply IH.
Qed.

Lemma retry_schedule_snoc u o d (from count : nat) :
  retry_schedule u o d from (S count) =
  (retry_schedule u o d from count
   ++ [EvFetch (from + count) u o; wait (backoff d (from + count))])%list.
Proof.
  revert from. induction count as [|k IH]; intros from.
  - cbn. rewrite Nat.add_0_r. reflexivity.
  - change (retry_schedule u o d from (S (S k)))
      with (EvFetch from u o :: wait (backoff d from)
              :: retry_schedule u o d (S from) (S k)).
    rewrite IH. cbn. replace (S (from + k)) with (from + S k)%nat by lia.
    reflexivity.
Qed.

Section Loop.
Context `{Host} (cfg : RequestConfig) (finalUrl : URL) (options : RequestInit).

Local Notation request n := (EvFetch n (toString finalUrl) options).
Local Notation context n :=
  {| ctx_url := toString finalUrl; ctx_method := method cfg; ctx_attempt := n |}.

Lemma attempt_loop_eq (attempt : nat) (lastError : option JsError) :
  attempt_loop cfg finalUrl options attempt lastError =
  if (attempt <=? retries cfg)%nat then
    match attempt_body cfg finalUrl options (S attempt) with
    | Ok value => (Returned value, [request (S attempt)])
    | Throw error =>
        if (S attempt <=? retries cfg)%nat && negb (isFatalError error) then
          let rest := attempt_loop cfg finalUrl options (S attempt) (Some error) in
          (fst rest,
           request (S attempt)
             :: wait (backoff (retryDelay cfg) (S attempt)) :: snd rest)
        else (Thrown (Some (enhanceError error (context (S attempt)))),
              [request (S attempt)])
    end
  else (Thrown lastError, []).
Proof.
  funelim (attempt_loop cfg finalUrl options attempt lastError);
    rewrite Hcond; reflexivity.
Qed.

Lemma attempt_loop_return (a : nat) (le : option JsError) (v : Payload) :
  (a <= retries cfg)%nat ->
  attempt_body cfg finalUrl options (S a) = Ok v ->
  attempt_loop cfg finalUrl options a le = (Returned v, [request (S a)]).
Proof.
  intros Ha Hb. rewrite attempt_loop_eq, Hb.
  apply Nat.leb_le in Ha. rewrite Ha. reflexivity.
Qed.

Lemma attempt_loop_retry (a : nat) (le : option JsError) (e : JsError) :
  (S a <= retries cfg)%nat ->
  attempt_body cfg finalUrl options (S a) = Throw e ->
  isFatalError e = false ->
  attempt_loop cfg finalUrl options a le =
    (fst (attempt_loop cfg finalUrl options (S a) (Some e)),
     request (S a) :: wait (backoff (retryDelay cfg) (S a))
       :: snd (attempt_loop cfg finalUrl options (S a) (Some e))).
Proof.
  intros Ha Hb Hf. rewrite attempt_loop_eq, Hb, Hf.
  assert (Ha' : (a <=? retries cfg)%nat = true) by (apply Nat.leb_le; lia).
  apply Nat.leb_le in Ha. rewrite Ha', Ha. reflexivity.
Qed.

Lemma attempt_loop_stop (a : nat) (le : option JsError) (e : JsError) :
  (a <= retries cfg)%nat ->
  attempt_body cfg finalUrl options (S a) = Throw e ->
  (retries cfg < S a)%nat \/ isFatalError e = true ->
  attempt_loop cfg finalUrl options a le =
    (Thrown (Some (enhanceError e (context (S a)))), [request (S a)]).
Proof.
  intros Ha Hb Hstop. rewrite attempt_loop_eq, Hb.
  apply Nat.leb_le in Ha. rewrite Ha.
  destruct Hstop as [Hlt | Hf].
  - apply Nat.leb_gt in Hlt. rewrite Hlt. reflexivity.
  - rewrite Hf, andb_false_r. reflexivity.
Qed.

(** [k] retryable failures in a row, with budget left after each, unfold
    into [k] request/sleep pairs followed by the rest of the loop. *)
Lemma attempt_loop_retries (k : nat) :
  forall (a : nat) (le : option JsError),
    (a + k <= retries cfg)%nat ->
    (forall n, (a < n <= a + k)%nat ->
       exists e, attempt_body cfg finalUrl options n = Throw e
                 /\ isFatalError e = false) ->
    exists le',
      attempt_loop cfg finalUrl options a le =
        (fst (attempt_loop cfg finalUrl options (a + k) le'),
         (retry_schedule (toString finalUrl) options (retryDelay cfg) (S a) k
          ++ snd (attempt_loop cfg finalUrl options (a + k) le'))%list).
Proof.
  induction k as [|k IH]; intros a le Hk Hfail.
  - exists le. rewrite Nat.add_0_r. cbn.
    destruct (attempt_loop cfg finalUrl options a le); reflexivity.
  - destruct (Hfail (S a)) as (e & Hb & Hf); [lia|].
    destruct (IH (S a) (Some e)) as (le' & Heq); [lia | intros n Hn; apply Hfail; lia |].
    exists le'. rewrite (attempt_loop_retry a le e) by (assumption || lia).
    rewrite Heq. cbn. replace (a + S k)%nat with (S (a + k)) by lia.
    reflexivity.
Qed.

(** Whatever the transport does, a thrown outcome of the loop is an error
    that carries the URL, the method handed to [enhanceError] and the
    number of the attempt that ended the call. *)
Lemma attempt_loop_thrown (k : nat) :
  forall (a : nat) (le : option JsError) (out : option JsError) (evs : list Event),
    (S (retries cfg) - a = k)%nat -> (a <= retries cfg)%nat ->
    attempt_loop cfg finalUrl options a le = (Thrown out, evs) ->
    exists e0 n,
      out = Some (enhanceError e0 (context n))
      /\ (a < n <= S (retries cfg))%nat
      /\ attempt_body cfg finalUrl options n = Throw e0
      /\ fetch_numbers evs = seq (S a) (n - a).
Proof.
  induction k as [k IH] using lt_wf_ind. intros a le out evs Hk Ha.
  rewrite attempt_loop_eq.
  assert (Ha' : (a <=? retries cfg)%nat = true) by (apply Nat.leb_le; lia).
  rewrite Ha'.
  destruct (attempt_body cfg finalUrl options (S a)) as [v | e] eqn:Hb;
    [discriminate|].
  destruct ((S a <=? retries cfg)%nat && negb (isFatalError e)) eqn:Hretry.
  - apply andb_true_iff in Hretry as [Hle _]. apply Nat.leb_le in Hle.
    cbv zeta.
    destruct (attempt_loop cfg finalUrl options (S a) (Some e)) as [out' evs'] eqn:Hrest.
    cbn [fst snd]. intros [= -> <-].
    destruct (IH (S (retries cfg) - S a)%nat ltac:(lia) (S a) (Some e) out evs'
                eq_refl Hle Hrest) as (e0 & n & -> & Hn & Hbn & Hnums).
    exists e0, n. repeat split; try lia; try assumption.
    unfold fetch_numbers in *. cbn. rewrite Hnums.
    replace (n - a)%nat with (S (n - S a)) by lia. reflexivity.
  - intros [= <- <-]. exists e, (S a). repeat split; try lia; try assumption.
    cbn. replace (S a - a)%nat with 1%nat by lia. reflexivity.
Qed.

End Loop.

(** ** Runs of fetchEnhanced *)

Section Runs.
Context `{Host} (url : Locator) (cfg : RequestConfig).

Local Notation finalUrl := (build_finalUrl url (query cfg)).
Local Notation options := (build_options cfg).
Local Notation u := (toString (build_finalUrl url (query cfg))).

(** After [N - 1] retryable failures, a failure on attempt [N] that is
    fatal, or that finds the budget spent, ends the call there. *)
Lemma fetchEnhanced_stops_at (N : nat) (e : JsError) :
  (1 <= N <= retries cfg + 1)%nat ->
  (forall n, (1 <= n < N)%nat -> attempt_fails_retryably url cfg n) ->
  attempt_body cfg finalUrl options N = Throw e ->
  N = (retries cfg + 1)%nat \/ isFatalError e = true ->
  fetchEnhanced url cfg =
    (Thrown (Some (enhanceError e
                     {| ctx_url := u; ctx_method := method cfg;
                        ctx_attempt := N |})),
     (retry_schedule u options (retryDelay cfg) 1 (N - 1)
      ++ [EvFetch N u options])%list).
Proof.
  intros HN Hfail Hb Hstop. unfold fetchEnhanced.
  destruct (attempt_loop_retries cfg finalUrl options (N - 1) 0 None)
    as (le' & Heq); [lia | intros n Hn; apply Hfail; lia |].
  rewrite Heq.
  replace (0 + (N - 1))%nat with (N - 1)%nat by lia.
  rewrite (attempt_loop_stop cfg finalUrl options (N - 1) le' e);
    replace (S (N - 1)) with N by lia; try assumption; try lia.
  - reflexivity.
  - destruct Hstop as [-> | Hf]; [left; lia | right; exact Hf].
Qed.

(** After [N] retryable failures with budget left, the call sleeps and
    issues request [N + 1]. *)
Lemma fetchEnhanced_retries_after (N : nat) :
  (1 <= N <= retries cfg)%nat ->
  (forall n, (1 <= n <= N)%nat -> attempt_fails_retryably url cfg n) ->
  exists post,
    snd (fetchEnhanced url cfg) =
      (retry_schedule u options (retryDelay cfg) 1 (N - 1)
       ++ EvFetch N u options :: wait (backoff (retryDelay cfg) N)
       :: EvFetch (N + 1) u options :: post)%list.
Proof.
  intros HN Hfail. unfold fetchEnhanced.
  destruct (attempt_loop_retries cfg finalUrl options N 0 None)
    as (le' & Heq); [lia | intros n Hn; apply Hfail; lia |].
  rewrite Heq. cbn [snd Nat.add].
  assert (Hhead : exists post,
             snd (attempt_loop cfg finalUrl options N le')
             = EvFetch (N + 1) u options :: post).
  { rewrite attempt_loop_eq.
    assert (Hle : (N <=? retries cfg)%nat = true) by (apply Nat.leb_le; lia).
    rewrite Hle. replace (S N) with (N + 1)%nat by lia.
    destruct (attempt_body cfg finalUrl options (N + 1)) as [v | e];
      [eexists; reflexivity|].
    destruct ((N + 1 <=? retries cfg)%nat && negb (isFatalError e));
      eexists; reflexivity. }
  destruct Hhead as (post & Hpost). exists post. rewrite Hpost.
  replace N with (S (N - 1)) at 1 by lia.
  rewrite retry_schedule_snoc, <- app_assoc.
  replace (1 + (N - 1))%nat with N by lia. reflexivity.
Qed.

(** Every thrown outcome is an error enriched with the final URL, the
    [method] option as the caller wrote it, and the number of the attempt
    that ended the call, which is also the number of requests issued. *)
Lemma fetchEnhanced_error_context (out : option JsError) (evs : list Event) :
  fetchEnhanced url cfg = (Thrown out, evs) ->
  exists e n,
    out = Some e
    /\ e_url e = Some u
    /\ e_method e = Some (method cfg)
    /\ e_attempt e = Some n
    /\ (1 <= n <= retries cfg + 1)%nat
    /\ fetch_numbers evs = seq 1 n.
Proof.
  unfold fetchEnhanced. intros Hrun.
  destruct (attempt_loop_thrown cfg finalUrl options _ 0 None out evs eq_refl
              ltac:(lia) Hrun) as (e0 & n & -> & Hn & _ & Hnums).
  eexists _, n. repeat split; try reflexivity; try lia.
  rewrite Hnums. f_equal. lia.
Qed.

(** The first thing a call does is issue request 1 with the options it
    built. *)
Lemma fetchEnhanced_first_request :
  exists rest, snd (fetchEnhanced url cfg) = EvFetch 1 u options :: rest.
Proof.
  unfold fetchEnhanced. rewrite attempt_loop_eq. cbn [Nat.leb].
  destruct (attempt_body cfg finalUrl options 1) as [v | e];
    [eexists; reflexivity|].
  destruct (_ && negb (isFatalError e)); eexists; reflexivity.
Qed.

Lemma rejected_attempt_body (n : nat) (response : Response) :
  attempt_is_rejected url cfg n response ->
  exists msg d,
    attempt_body cfg finalUrl options n
    = Throw (FetchError msg (r_status response) d).
Proof.
  intros [Hfetch Hval]. unfold attempt_body.
  rewrite Hfetch. cbn [bind].
  rewrite Hval, parseErrorResponse_total. cbn.
  eexists _, _. reflexivity.
Qed.

End Runs.

(** C1: when every attempt fails with an error that is not fatal, a call
    with [retries = R] issues the request exactly [R + 1] times, the
    attempts being numbered 1, 2, ..., [R + 1], and then throws; the error
    reports attempt [R + 1]. *)
Theorem C1_retryable_failures_take_all_attempts `{Host}
    (url : Locator) (cfg : RequestConfig) :
  (forall n, (1 <= n <= retries cfg + 1)%nat -> attempt_fails_retryably url cfg n) ->
  fetch_numbers (snd (fetchEnhanced url cfg)) = seq 1 (retries cfg + 1)
  /\ attempts_made (snd (fetchEnhanced url cfg)) = (retries cfg + 1)%nat
  /\ exists e,
       fst (fetchEnhanced url cfg) = Thrown (Some e)
       /\ e_attempt e = Some (retries cfg + 1)%nat.
Proof.
  intros Hfail.
  destruct (Hfail (retries cfg + 1)%nat) as (e & Hb & _); [lia|].
  rewrite (fetchEnhanced_stops_at url cfg (retries cfg + 1) e);
    [| lia | intros n Hn; apply Hfail; lia | exact Hb | left; reflexivity].
  cbn [fst snd].
  assert (Hnums : fetch_numbers
            (retry_schedule (toString (build_finalUrl url (query cfg)))
               (build_options cfg) (retryDelay cfg) 1 (retries cfg + 1 - 1)
             ++ [EvFetch (retries cfg + 1)
                   (toString (build_finalUrl url (query cfg))) (build_options cfg)])
          = seq 1 (retries cfg + 1)).
  { rewrite fetch_numbers_app, fetch_numbers_retry_schedule.
    replace (retries cfg + 1 - 1)%nat with (retries cfg) by lia.
    rewrite (seq_app (retries cfg) 1 1). cbn.
    replace (retries cfg + 1)%nat with (S (retries cfg)) by lia. reflexivity. }
  split; [exact Hnums|]. split.
  - unfold attempts_made. rewrite Hnums. apply length_seq.
  - eexists. split; reflexivity.
Qed.

Lemma C1_retryable_failures_witness :
  fetch_numbers
    (snd (@fetchEnhanced (constant_host (Ok (unreadable_response 500)))
            sample_locator default_config)) = [1; 2; 3; 4]%nat
  /\ attempts_made
       (snd (@fetchEnhanced (constant_host (Ok (unreadable_response 500)))
               sample_locator default_config)) = 4%nat
  /\ exists e,
       fst (@fetchEnhanced (constant_host (Ok (unreadable_response 500)))
              sample_locator default_config) = Thrown (Some e)
       /\ e_attempt e = Some 4%nat.
Proof.
  apply (@C1_retryable_failures_take_all_attempts
           (constant_host (Ok (unreadable_response 500)))
           sample_locator default_config).
  intros n _. eexists. split; reflexivity.
Defined.

(** C2: when attempts 1 to [N] all fail with errors that are not fatal and
    [N <= retries], request [N] is followed by a sleep of
    [retryDelay * 2^(N-1)] milliseconds and then by request [N + 1]; that
    sleep is the [N]-th delay of the run. *)
Theorem C2_backoff_delay `{Host} (url : Locator) (cfg : RequestConfig) (N : nat) :
  (1 <= N <= retries cfg)%nat ->
  (forall n, (1 <= n <= N)%nat -> attempt_fails_retryably url cfg n) ->
  exists pre post u o,
    snd (fetchEnhanced url cfg) =
      (pre ++ EvFetch N u o
           :: EvWait (retryDelay cfg * 2 ^ (Z.of_nat N - 1))
           :: EvFetch (N + 1) u o :: post)%list
    /\ fetch_numbers pre = seq 1 (N - 1)
    /\ length (delays pre) = (N - 1)%nat.
Proof.
  intros HN Hfail.
  destruct (fetchEnhanced_retries_after url cfg N HN Hfail) as (post & Heq).
  eexists _, post, _, _. split; [exact Heq|]. split.
  - apply fetch_numbers_retry_schedule.
  - rewrite delays_retry_schedule, length_map. apply length_seq.
Qed.

Lemma C2_backoff_delay_witness :
  exists pre post u o,
    snd (@fetchEnhanced (constant_host (Ok (unreadable_response 500)))
           sample_locator default_config) =
      (pre ++ EvFetch 3 u o :: EvWait (1000 * 2 ^ (Z.of_nat 3 - 1))
           :: EvFetch (3 + 1) u o :: post)%list
    /\ fetch_numbers pre = seq 1 (3 - 1)
    /\ length (delays pre) = (3 - 1)%nat.
Proof.
  apply (@C2_backoff_delay (constant_host (Ok (unreadable_response 500)))
           sample_locator default_config 3).
  - cbn. lia.
  - intros n _. eexists. split; reflexivity.
Defined.

(** C3: a rejection (a response whose status fails the validator) is fatal
    exactly when its status lies in [400, 500). A rejection with such a
    status on attempt 1 ends the call on attempt 1, without a sleep or a
    second request, whatever the budget; rejections with a status outside
    that range, such as 500, are retried until the budget of [retries + 1]
    attempts is spent. *)
Theorem C3_client_errors_are_fatal `{Host} (url : Locator) (cfg : RequestConfig) :
  (forall msg st d, isFatalError (FetchError msg st d) = true <-> 400 <= st < 500)
  /\ (forall response,
        attempt_is_rejected url cfg 1 response ->
        400 <= r_status response < 500 ->
        exists e u o,
          fetchEnhanced url cfg = (Thrown (Some e), [EvFetch 1 u o])
          /\ e_status e = Some (r_status response)
          /\ e_attempt e = Some 1%nat)
  /\ (forall st,
        ~ 400 <= st < 500 ->
        (forall n, (1 <= n <= retries cfg + 1)%nat ->
           exists response,
             attempt_is_rejected url cfg n response /\ r_status response = st) ->
        fetch_numbers (snd (fetchEnhanced url cfg)) = seq 1 (retries cfg + 1)
        /\ exists e,
             fst (fetchEnhanced url cfg) = Thrown (Some e)
             /\ e_status e = Some st
             /\ e_attempt e = Some (retries cfg + 1)%nat).
Proof.
  split; [apply isFatalError_FetchError|]. split.
  - intros response Hrej Hst.
    destruct (rejected_attempt_body url cfg 1 response Hrej) as (msg & d & Hb).
    rewrite (fetchEnhanced_stops_at url cfg 1 (FetchError msg (r_status response) d)
               ltac:(lia) ltac:(intros; lia) Hb).
    + eexists _, _, _. repeat split.
    + right. apply isFatalError_FetchError. exact Hst.
  - intros st Hst Hrej.
    assert (Hfail : forall n, (1 <= n <= retries cfg + 1)%nat ->
              exists msg d,
                attempt_body cfg (build_finalUrl url (query cfg)) (build_options cfg) n
                = Throw (FetchError msg st d)).
    { intros n Hn. destruct (Hrej n Hn) as (response & Hr & <-).
      apply (rejected_attempt_body url cfg n response Hr). }
    assert (Hnonfatal : forall msg d, isFatalError (FetchError msg st d) = false).
    { intros msg d. apply not_true_is_false. intros Hf.
      apply Hst. apply (isFatalError_FetchError msg st d). exact Hf. }
    destruct (Hfail (retries cfg + 1)%nat ltac:(lia)) as (msg & d & Hb).
    rewrite (fetchEnhanced_stops_at url cfg (retries cfg + 1)
               (FetchError msg st d) ltac:(lia));
      [| | exact Hb | left; reflexivity].
    + cbn [fst snd]. split.
      * rewrite fetch_numbers_app, fetch_numbers_retry_schedule.
        replace (retries cfg + 1 - 1)%nat with (retries cfg) by lia.
        rewrite (seq_app (retries cfg) 1 1). cbn.
        replace (retries cfg + 1)%nat with (S (retries cfg)) by lia. reflexivity.
      * eexists. repeat split.
    + intros n Hn. destruct (Hfail n ltac:(lia)) as (msg' & d' & Hb').
      exists (FetchError msg' st d'). split; [exact Hb' | apply Hnonfatal].
Qed.

Lemma C3_client_errors_witness :
  (exists e u o,
     @fetchEnhanced (constant_host (Ok (text_response 404 None "Not Found")))
       sample_locator default_config = (Thrown (Some e), [EvFetch 1 u o])
     /\ e_status e = Some 404
     /\ e_attempt e = Some 1%nat)
  /\ (fetch_numbers
        (snd (@fetchEnhanced (constant_host (Ok (text_response 500 None "Oops")))
                sample_locator default_config)) = seq 1 (3 + 1)
      /\ exists e,
           fst (@fetchEnhanced (constant_host (Ok (text_response 500 None "Oops")))
                  sample_locator default_config) = Thrown (Some e)
           /\ e_status e = Some 500
           /\ e_attempt e = Some (3 + 1)%nat).
Proof.
  split.
  - apply (proj1 (proj2 (@C3_client_errors_are_fatal
             (constant_host (Ok (text_response 404 None "Not Found")))
             sample_locator default_config))
             (text_response 404 None "Not Found")).
    + split; reflexivity.
    + cbn. lia.
  - apply (proj2 (proj2 (@C3_client_errors_are_fatal
             (constant_host (Ok (text_response 500 None "Oops")))
             sample_locator default_config)) 500).
    + lia.
    + intros n _. exists (text_response 500 None "Oops").
      split; [split|]; reflexivity.
Defined.

(** C4, evaluated on fetch.js: a call with [method: 'post'] whose single
    attempt is rejected sends the request as [POST] but surfaces an error
    whose [method] is the string the caller wrote, [post]; the guide's
    variant attaches [POST]. *)
Theorem C4_error_method_not_normalized :
  exists e e' u o,
    @fetchEnhanced (constant_host (Ok (unreadable_response 500)))
      sample_locator sample_post_config = (Thrown (Some e), [EvFetch 1 u o])
    /\ o_method o = "POST"
    /\ e_url e = Some "https://api.example.com/data"
    /\ e_attempt e = Some 1%nat
    /\ e_method e = Some "post"
    /\ e_method e <> Some (toUpperCase (method sample_post_config))
    /\ fst (@Guide.fetchEnhanced (constant_host (Ok (unreadable_response 500)))
              sample_locator sample_post_config) = Thrown (Some e')
    /\ e_method e' = Some "POST".
Proof.
  eexists _, _, _, _. split; [vm_compute; reflexivity|].
  repeat split; try (vm_compute; reflexivity). discriminate.
Qed.

(** C5, evaluated on fetch.js: with the default options the call arms a
    timeout signal of 8000 ms; when that signal fires, [fetch] is rejected
    with the signal's reason, an error named [TimeoutError], which
    [isFatalError] does not hold fatal: the call sleeps 1000, 2000 and 4000
    ms, issues the request four times and throws the [TimeoutError] with
    attempt 4. *)
Theorem C5_timeout_is_retried :
  o_signal (@build_options timed_out_host default_config)
  = Some (TimeoutSignal 8000)
  /\ isFatalError timeout_error = false
  /\ fetch_numbers
       (snd (@fetchEnhanced timed_out_host sample_locator default_config))
     = [1; 2; 3; 4]%nat
  /\ delays (snd (@fetchEnhanced timed_out_host sample_locator default_config))
     = [1000; 2000; 4000]
  /\ fst (@fetchEnhanced timed_out_host sample_locator default_config)
     = Thrown (Some (enhanceError timeout_error
                       {| ctx_url := "https://api.example.com/data";
                          ctx_method := "GET";
                          ctx_attempt := 4 |})).
Proof.
  repeat split; vm_compute; reflexivity.
Qed.


(** ** Query strings *)

Lemma append_nil (b : string) : EmptyString ++ b = b.
Proof. reflexivity. Qed.

Lemma append_cons (x : ascii) (a b : string) :
  String x a ++ b = String x (a ++ b).
Proof. reflexivity. Qed.

Ltac push_append := rewrite ?append_nil, ?append_cons; cbn.

Lemma urlencode_byte_safe (c : ascii) : query_safe (urlencode_byte c) = true.
Proof. destruct c as [[] [] [] [] [] [] [] []]; reflexivity. Qed.

Lemma urldecode_byte (c : ascii) (r : string) :
  urldecode (urlencode_byte c ++ r) = String c (urldecode r).
Proof. destruct c as [[] [] [] [] [] [] [] []]; reflexivity. Qed.

Lemma query_safe_app (a b : string) :
  query_safe (a ++ b) = query_safe a && query_safe b.
Proof.
  induction a as [|x a IH]; push_append; [reflexivity|].
  rewrite IH, andb_assoc. reflexivity.
Qed.

Lemma urlencode_cons (c : ascii) (s : string) :
  urlencode (String c s) = urlencode_byte c ++ urlencode s.
Proof. reflexivity. Qed.

Lemma urlencode_safe (s : string) : query_safe (urlencode s) = true.
Proof.
  induction s as [|c s IH]; [reflexivity|].
  rewrite urlencode_cons, query_safe_app, urlencode_byte_safe, IH. reflexivity.
Qed.

Lemma urldecode_urlencode (s : string) : urldecode (urlencode s) = s.
Proof.
  induction s as [|c s IH]; [reflexivity|].
  rewrite urlencode_cons, urldecode_byte, IH. reflexivity.
Qed.

Lemma query_safe_no_delimiter (s : string) :
  query_safe s = true ->
  contains_char "&" s = false /\ contains_char "=" s = false
  /\ contains_char "#" s = false /\ contains_char "?" s = false
  /\ contains_char " " s = false.
Proof.
  induction s as [|c s IH]; push_append; [auto|].
  intros Hs. apply andb_true_iff in Hs as [Hc Hs].
  destruct (IH Hs) as (-> & -> & -> & -> & ->).
  revert Hc. destruct c as [[] [] [] [] [] [] [] []]; cbn;
    first [discriminate | auto].
Qed.

Lemma contains_char_app (c : ascii) (a b : string) :
  contains_char c (a ++ b) = contains_char c a || contains_char c b.
Proof.
  induction a as [|x a IH]; push_append; [reflexivity|].
  rewrite IH, orb_assoc. reflexivity.
Qed.

Lemma split_first_app (sep : ascii) (a b : string) :
  contains_char sep a = false ->
  split_first sep (a ++ String sep b) = Some (a, b).
Proof.
  induction a as [|x a IH]; push_append.
  - intros _. rewrite Ascii.eqb_refl. reflexivity.
  - intros Hx. apply orb_false_iff in Hx as [Hx Ha].
    rewrite Hx, (IH Ha). reflexivity.
Qed.

Lemma split_on_none (sep : ascii) (a : string) :
  contains_char sep a = false -> split_on sep a = [a].
Proof.
  induction a as [|x a IH]; push_append; [reflexivity|].
  intros Hx. apply orb_false_iff in Hx as [Hx Ha].
  rewrite Hx, (IH Ha). reflexivity.
Qed.

Lemma split_on_app (sep : ascii) (a b : string) :
  contains_char sep a = false ->
  split_on sep (a ++ String sep b) = a :: split_on sep b.
Proof.
  induction a as [|x a IH]; push_append.
  - intros _. rewrite Ascii.eqb_refl. reflexivity.
  - intros Hx. apply orb_false_iff in Hx as [Hx Ha].
    rewrite Hx, (IH Ha). reflexivity.
Qed.

Lemma serialize_pair_no_amp (p : string * string) :
  contains_char "&" (serialize_pair p) = false.
Proof.
  unfold serialize_pair.
  rewrite contains_char_app, append_cons, append_nil.
  change (contains_char "&" (String "=" (urlencode (snd p))))
    with (contains_char "&" (urlencode (snd p))).
  destruct (query_safe_no_delimiter _ (urlencode_safe (fst p))) as (-> & _).
  destruct (query_safe_no_delimiter _ (urlencode_safe (snd p))) as (-> & _).
  reflexivity.
Qed.

Lemma serialize_pair_truthy (p : string * string) :
  truthy_string (serialize_pair p) = true.
Proof.
  unfold serialize_pair. destruct (urlencode (fst p)); reflexivity.
Qed.

Lemma parse_pair_serialize_pair (p : string * string) :
  parse_pair (serialize_pair p) = p.
Proof.
  unfold parse_pair, serialize_pair.
  change ("=" ++ urlencode (snd p)) with (String "=" (urlencode (snd p))).
  rewrite split_first_app
    by apply (query_safe_no_delimiter _ (urlencode_safe (fst p))).
  rewrite !urldecode_urlencode. destruct p; reflexivity.
Qed.

Lemma split_on_join_amp (l : list (string * string)) :
  l <> [] ->
  split_on "&" (join_amp (map serialize_pair l)) = map serialize_pair l.
Proof.
  induction l as [|p l IH]; [congruence|]. intros _.
  destruct l as [|q l].
  - cbn. apply split_on_none, serialize_pair_no_amp.
  - change (join_amp (map serialize_pair (p :: q :: l)))
      with (serialize_pair p ++ String "&" (join_amp (map serialize_pair (q :: l)))).
    rewrite split_on_app by apply serialize_pair_no_amp.
    rewrite IH by congruence. reflexivity.
Qed.

Lemma urlencoded_serialize_truthy (l : list (string * string)) :
  l <> [] -> truthy_string (urlencoded_serialize l) = true.
Proof.
  destruct l as [|p l]; [congruence|]. intros _.
  unfold urlencoded_serialize. cbn [map join_amp].
  pose proof (serialize_pair_truthy p) as Hp.
  destruct l; [exact Hp|].
  destruct (serialize_pair p); [discriminate | reflexivity].
Qed.

(** Parsing a serialized list gives the list back: no key or value can
    break the structure of the query. *)
Lemma urlencoded_parse_serialize (l : list (string * string)) :
  urlencoded_parse (urlencoded_serialize l) = l.
Proof.
  destruct l as [|p l]; [reflexivity|].
  unfold urlencoded_parse, urlencoded_serialize.
  rewrite split_on_join_amp by congruence.
  generalize (p :: l). clear. intros l.
  induction l as [|q l IH]; [reflexivity|].
  cbn [map]. rewrite filter_cons.
  destruct (decide (truthy_string (serialize_pair q))) as [_ | Hn].
  - cbn [map]. rewrite parse_pair_serialize_pair. f_equal. exact IH.
  - rewrite serialize_pair_truthy in Hn. exfalso. apply Hn. exact I.
Qed.

Lemma defined_entries_app (q1 q2 : list (string * QueryValue)) :
  defined_entries (q1 ++ q2) = (defined_entries q1 ++ defined_entries q2)%list.
Proof. apply omap_app. Qed.

Lemma fold_append_entries (q : list (string * QueryValue)) :
  forall u0 : URL,
    let finalUrl :=
      fold_left
        (fun finalUrl kv =>
           if negb (is_undefined (snd kv))
           then searchParams_append (fst kv) (ToString (snd kv)) finalUrl
           else finalUrl) q u0 in
    u_base finalUrl = u_base u0
    /\ u_fragment finalUrl = u_fragment u0
    /\ u_searchParams finalUrl = (u_searchParams u0 ++ defined_entries q)%list
    /\ u_query finalUrl =
         match defined_entries q with
         | [] => u_query u0
         | _ :: _ =>
             Some (urlencoded_serialize (u_searchParams u0 ++ defined_entries q))
         end.
Proof.
  induction q as [|[k v] q IH]; intros u0; cbn zeta.
  - cbn. rewrite app_nil_r. auto.
  - cbn [fold_left fst snd].
    destruct (is_undefined v) eqn:Hv; cbn [negb].
    + replace (defined_entries ((k, v) :: q)) with (defined_entries q)
        by (unfold defined_entries; cbn; rewrite Hv; reflexivity).
      apply IH.
    + replace (defined_entries ((k, v) :: q))
        with ((k, ToString v) :: defined_entries q)
        by (unfold defined_entries; cbn; rewrite Hv; reflexivity).
      destruct (IH (searchParams_append k (ToString v) u0)) as (Hb & Hf & Hp & Hq).
      rewrite Hb, Hf, Hp, Hq. cbn [searchParams_append u_base u_fragment u_searchParams u_query].
      rewrite <- app_assoc. cbn [app].
      repeat split.
      destruct (defined_entries q); [|reflexivity].
      rewrite urlencoded_serialize_truthy; [reflexivity|].
      destruct (u_searchParams u0); discriminate.
Qed.

Lemma build_finalUrl_query (url : Locator) (query : list (string * QueryValue)) :
  urlencoded_parse (default EmptyString (u_query (build_finalUrl url query)))
  = (urlencoded_parse (default EmptyString (l_query url)) ++ defined_entries query)%list.
Proof.
  unfold build_finalUrl.
  destruct (fold_append_entries query (new_URL url)) as (_ & _ & _ & Hq).
  rewrite Hq. cbn [new_URL u_query u_searchParams].
  destruct (defined_entries query) as [|p l].
  - rewrite app_nil_r. reflexivity.
  - cbn [default]. apply urlencoded_parse_serialize.
Qed.

(** C9: the query string of the final URL parses into the pairs the
    locator already had, followed by the query entries whose value is not
    [undefined], each with its key and its value intact. An entry whose
    value is [undefined] leaves the URL as it is. Keys and values are
    written percent-encoded: the encoded text never contains [&], [=], [#],
    [?] or a space, and decodes to the original; [a&b] is written [a%26b]. *)
Theorem C9_query_entries (url : Locator) (query : list (string * QueryValue)) :
  urlencoded_parse (default EmptyString (u_query (build_finalUrl url query)))
  = (urlencoded_parse (default EmptyString (l_query url)) ++ defined_entries query)%list
  /\ (defined_entries query <> [] ->
      toString (build_finalUrl url query) =
        l_base url
        ++ "?" ++ urlencoded_serialize
                    (urlencoded_parse (default EmptyString (l_query url))
                     ++ defined_entries query)
        ++ match l_fragment url with Some f => "#" ++ f | None => EmptyString end)
  /\ (forall k q1 q2,
        query = (q1 ++ (k, QUndefined) :: q2)%list ->
        build_finalUrl url query = build_finalUrl url (q1 ++ q2))
  /\ (forall k v,
        In (k, v) query -> v <> QUndefined ->
        In (k, ToString v)
           (urlencoded_parse (default EmptyString (u_query (build_finalUrl url query)))))
  /\ (forall s,
        contains_char "&" (urlencode s) = false
        /\ contains_char "=" (urlencode s) = false
        /\ contains_char "#" (urlencode s) = false
        /\ contains_char "?" (urlencode s) = false
        /\ contains_char " " (urlencode s) = false
        /\ urldecode (urlencode s) = s)
  /\ urlencode "a&b" = "a%26b".
Proof.
  split; [apply build_finalUrl_query|]. split; [|split; [|split; [|split]]].
  - intros Hne. unfold build_finalUrl, toString.
    destruct (fold_append_entries query (new_URL url)) as (Hb & Hf & _ & Hq).
    rewrite Hb, Hf, Hq. cbn [new_URL u_base u_fragment u_searchParams].
    destruct (defined_entries query); [congruence | reflexivity].
  - intros k q1 q2 ->. unfold build_finalUrl.
    rewrite !fold_left_app. reflexivity.
  - intros k v Hin Hv. rewrite build_finalUrl_query.
    apply in_or_app. right. unfold defined_entries.
    apply list_elem_of_In, list_elem_of_omap. exists (k, v).
    split; [apply list_elem_of_In; exact Hin|].
    cbn. destruct v; try reflexivity. congruence.
  - intros s.
    destruct (query_safe_no_delimiter _ (urlencode_safe s)) as (? & ? & ? & ? & ?).
    repeat split; try assumption. apply urldecode_urlencode.
  - reflexivity.
Qed.

Lemma C9_query_entries_witness :
  toString (build_finalUrl sample_locator
              [("q", QString "a&b=c d"); ("skip", QUndefined); ("n", QNumber 7)])
  = "https://api.example.com/data?q=a%26b%3Dc+d&n=7"
  /\ build_finalUrl sample_locator
       [("q", QString "a&b=c d"); ("skip", QUndefined); ("n", QNumber 7)]
     = build_finalUrl sample_locator [("q", QString "a&b=c d"); ("n", QNumber 7)]
  /\ In ("q", "a&b=c d")
        (urlencoded_parse
           (default EmptyString
              (u_query (build_finalUrl sample_locator
                 [("q", QString "a&b=c d"); ("skip", QUndefined); ("n", QNumber 7)])))).
Proof.
  pose proof (C9_query_entries sample_locator
                [("q", QString "a&b=c d"); ("skip", QUndefined); ("n", QNumber 7)])
    as (_ & Hstr & Hskip & Hin & _).
  split; [|split].
  - rewrite Hstr; [reflexivity | discriminate].
  - apply (Hskip "skip" [("q", QString "a&b=c d")] [("n", QNumber 7)]). reflexivity.
  - apply (Hin "q" (QString "a&b=c d")); [left; reflexivity | discriminate].
Defined.

(** ** Request options *)

Lemma or_string_truthy (v d : string) :
  v <> EmptyString -> or_string (Some v) d = v.
Proof. intros Hv. destruct v; [congruence | reflexivity]. Qed.

Lemma build_options_Guide `{Host} (cfg : RequestConfig) :
  Guide.build_options cfg = build_options cfg.
Proof.
  unfold Guide.build_options, build_options. cbn [o_method o_headers o_signal].
  destruct (truthy_body (body cfg) && negb (method_has_no_body (toUpperCase (method cfg))));
    [|reflexivity].
  destruct (typeof_object (body cfg) && negb (instanceof_FormData (body cfg)));
    [|reflexivity].
  f_equal. unfold Guide.header_missing, or_string.
  destruct (headers cfg !! "Content-Type") as [v|] eqn:Hv; [|reflexivity].
  destruct (truthy_string v); [|reflexivity].
  cbn. symmetry. apply insert_id. exact Hv.
Qed.

(** The caller's signal takes priority over the timeout; without either
    no signal is attached. *)
Lemma build_options_signal `{Host} (cfg : RequestConfig) :
  o_signal (build_options cfg) =
    match signal cfg with
    | Some sg => Some sg
    | None => if timeout cfg =? 0 then None else Some (TimeoutSignal (timeout cfg))
    end.
Proof.
  unfold build_options. cbn [o_signal].
  destruct (truthy_body (body cfg) && _);
    [destruct (typeof_object (body cfg) && _)|];
    cbn [o_signal]; destruct (signal cfg); try reflexivity;
    destruct (timeout cfg =? 0); reflexivity.
Qed.

(** An empty [Content-Type] is falsy and is replaced like a missing one. *)
Lemma build_options_empty_content_type `{Host} (cfg : RequestConfig) (obj : Json) :
  body cfg = BodyObject obj ->
  method_has_no_body (toUpperCase (method cfg)) = false ->
  headers cfg !! "Content-Type" = Some EmptyString ->
  o_headers (build_options cfg) !! "Content-Type" = Some "application/json".
Proof.
  intros Hbody Hm Hct. unfold build_options. rewrite Hbody.
  cbn [truthy_body typeof_object instanceof_FormData negb andb
       o_method o_headers o_signal].
  rewrite Hm, Hct. cbn [negb o_headers or_string truthy_string].
  apply lookup_insert_eq.
Qed.

(** A non-empty string and a [FormData] are handed to [fetch] as they are,
    with the caller's headers. *)
Lemma build_options_passthrough `{Host} (cfg : RequestConfig) :
  method_has_no_body (toUpperCase (method cfg)) = false ->
  truthy_body (body cfg) = true ->
  typeof_object (body cfg) = false \/ instanceof_FormData (body cfg) = true ->
  o_body (build_options cfg) = Some (body cfg)
  /\ o_headers (build_options cfg) = headers cfg.
Proof.
  intros Hm Ht Hpass. unfold build_options.
  cbn [o_method o_headers o_signal]. rewrite Hm, Ht. cbn [negb andb].
  destruct Hpass as [-> | ->]; [|rewrite andb_false_r]; split; reflexivity.
Qed.

(** C6: for a structured object body, a method other than GET and HEAD
    (POST in particular) sends the JSON serialization of the object; the
    [Content-Type] header becomes [application/json] when the caller gave
    none, every other header being kept, and the headers are left as the
    caller wrote them when the caller gave a non-empty [Content-Type]. With
    method GET or HEAD no body is attached and the headers are untouched.
    These are the options every request of the call is issued with. *)
Theorem C6_body_policy `{Host} (url : Locator) (cfg : RequestConfig) (obj : Json) :
  body cfg = BodyObject obj ->
  (toUpperCase (method cfg) = "POST" ->
   headers cfg !! "Content-Type" = None ->
   o_body (build_options cfg) = Some (BodyString (JSON_stringify (BodyObject obj)))
   /\ o_headers (build_options cfg) !! "Content-Type" = Some "application/json"
   /\ o_headers (build_options cfg)
      = <["Content-Type" := "application/json"]> (headers cfg))
  /\ (toUpperCase (method cfg) <> "GET" -> toUpperCase (method cfg) <> "HEAD" ->
      forall v, headers cfg !! "Content-Type" = Some v -> v <> EmptyString ->
      o_body (build_options cfg) = Some (BodyString (JSON_stringify (BodyObject obj)))
      /\ o_headers (build_options cfg) = headers cfg)
  /\ (toUpperCase (method cfg) = "GET" \/ toUpperCase (method cfg) = "HEAD" ->
      o_body (build_options cfg) = None
      /\ o_headers (build_options cfg) = headers cfg)
  /\ (exists u rest,
        snd (fetchEnhanced url cfg) = EvFetch 1 u (build_options cfg) :: rest).
Proof.
  intros Hbody. split; [|split; [|split]].
  - intros Hm Hct. unfold build_options. rewrite Hbody.
    cbn [truthy_body typeof_object instanceof_FormData negb andb
         o_method o_headers o_signal].
    rewrite Hm, Hct. cbn. split; [reflexivity|].
    split; [apply lookup_insert_eq | reflexivity].
  - intros Hget Hhead v Hct Hv. unfold build_options. rewrite Hbody.
    cbn [truthy_body typeof_object instanceof_FormData negb andb
         o_method o_headers o_signal].
    assert (Hno : method_has_no_body (toUpperCase (method cfg)) = false).
    { unfold method_has_no_body. cbn.
      destruct (String.eqb_spec (toUpperCase (method cfg)) "GET"); [congruence|].
      destruct (String.eqb_spec (toUpperCase (method cfg)) "HEAD"); [congruence|].
      reflexivity. }
    rewrite Hno, Hct. cbn [negb o_body o_headers]. split; [reflexivity|].
    rewrite or_string_truthy by exact Hv. apply insert_id. exact Hct.
  - intros Hm. unfold build_options. rewrite Hbody.
    cbn [truthy_body typeof_object instanceof_FormData negb andb
         o_method o_headers o_signal].
    destruct Hm as [Hm | Hm]; rewrite Hm; cbn; auto.
  - destruct (fetchEnhanced_first_request url cfg) as (rest & Hrest).
    eexists _, rest. exact Hrest.
Qed.

Lemma C6_body_policy_witness :
  (o_body (@build_options (constant_host (Ok (unreadable_response 500)))
             sample_post_config)
   = Some (BodyString
                (sample_stringify (BodyObject (JObject [("name", JString "John")]))))
   /\ o_headers (@build_options (constant_host (Ok (unreadable_response 500)))
                   sample_post_config) !! "Content-Type"
      = Some "application/json"
   /\ o_headers (@build_options (constant_host (Ok (unreadable_response 500)))
                   sample_post_config)
      = <["Content-Type" := "application/json"]> (headers sample_post_config))
  /\ (o_body (@build_options (constant_host (Ok (unreadable_response 500)))
                sample_put_config)
      = Some (BodyString
                (sample_stringify (BodyObject (JObject [("name", JString "John")]))))
      /\ o_headers (@build_options (constant_host (Ok (unreadable_response 500)))
                      sample_put_config)
         = headers sample_put_config)
  /\ (o_body (@build_options (constant_host (Ok (unreadable_response 500)))
                sample_get_config) = None
      /\ o_headers (@build_options (constant_host (Ok (unreadable_response 500)))
                      sample_get_config)
         = headers sample_get_config).
Proof.
  split; [|split].
  - apply (proj1 (@C6_body_policy (constant_host (Ok (unreadable_response 500)))
                    sample_locator sample_post_config
                    (JObject [("name", JString "John")]) eq_refl));
      reflexivity.
  - apply (proj1 (proj2 (@C6_body_policy (constant_host (Ok (unreadable_response 500)))
                    sample_locator sample_put_config
                    (JObject [("name", JString "John")]) eq_refl))
             ltac:(discriminate) ltac:(discriminate) "text/plain");
      [reflexivity | discriminate].
  - apply (proj1 (proj2 (proj2 (@C6_body_policy
                    (constant_host (Ok (unreadable_response 500)))
                    sample_locator sample_get_config
                    (JObject [("name", JString "John")]) eq_refl)))).
    left. reflexivity.
Defined.


(** ** The two variants compared *)

Section Variants.
Context `{Host} (cfg : RequestConfig) (finalUrl : URL) (options : RequestInit).

Local Notation u := (toString finalUrl).
Local Notation same_data := (rejections_read_as_json cfg (toString finalUrl) options).

Lemma Guide_attempt_loop_eq (attempt : nat) (lastError : option JsError) :
  Guide.guide_attempt_loop cfg finalUrl options attempt lastError =
  if (attempt <=? retries cfg)%nat then
    match Guide.attempt_body cfg finalUrl options (S attempt) with
    | Ok value => (Returned value, [EvFetch (S attempt) (toString finalUrl) options])
    | Throw error =>
        if (S attempt <=? retries cfg)%nat && negb (isFatalError error) then
          let rest := Guide.guide_attempt_loop cfg finalUrl options (S attempt) (Some error) in
          (fst rest,
           EvFetch (S attempt) (toString finalUrl) options
             :: wait (backoff (retryDelay cfg) (S attempt)) :: snd rest)
        else (Thrown (Some (enhanceError error
                               {| ctx_url := toString finalUrl;
                                  ctx_method := o_method options;
                                  ctx_attempt := S attempt |})),
              [EvFetch (S attempt) (toString finalUrl) options])
    end
  else (Thrown lastError, []).
Proof.
  funelim (Guide.guide_attempt_loop cfg finalUrl options attempt lastError);
    rewrite Hcond; reflexivity.
Qed.

Lemma agree_except_data_fatal (e1 e2 : JsError) :
  agree_except_data e1 e2 -> isFatalError e1 = isFatalError e2.
Proof.
  intros (Hn & Ht & _ & Hs & _). unfold isFatalError.
  rewrite Hn, Ht, Hs. reflexivity.
Qed.

(** One attempt ends the same way in both variants, up to the payload of a
    rejection whose body is not JSON. *)
Lemma attempt_body_agree (n : nat) :
  match attempt_body cfg finalUrl options n,
        Guide.attempt_body cfg finalUrl options n with
  | Ok v1, Ok v2 => v1 = v2
  | Throw e1, Throw e2 =>
      agree_except_data e1 e2 /\ (same_data -> e1 = e2)
  | _, _ => False
  end.
Proof.
  unfold attempt_body, Guide.attempt_body.
  destruct (fetch n (toString finalUrl) options) as [response | e] eqn:Hfetch;
    cbn [bind]; [|split; [repeat split | reflexivity]].
  destruct (validateStatus cfg (r_status response)) eqn:Hval; cbn [negb].
  - rewrite parseResponse_decode.
    destruct (parseResponse response (responseType cfg));
      [reflexivity | split; [repeat split | reflexivity]].
  - rewrite parseErrorResponse_total, Guide_parseErrorResponse_total. cbn [bind].
    split; [repeat split|].
    intros Hdec. destruct (Hdec n response Hfetch Hval) as [v Hv].
    rewrite Hv. reflexivity.
Qed.

(** The two loops, entered with the same attempt counter, do the same
    things and end alike. *)
Lemma attempt_loops_agree (k : nat) :
  forall (a : nat) (le1 le2 : option JsError),
    (S (retries cfg) - a = k)%nat -> (a <= retries cfg)%nat ->
    snd (attempt_loop cfg finalUrl options a le1)
    = snd (Guide.guide_attempt_loop cfg finalUrl options a le2)
    /\ outcomes_agree same_data u (method cfg) (o_method options)
         (fst (attempt_loop cfg finalUrl options a le1))
         (fst (Guide.guide_attempt_loop cfg finalUrl options a le2)).
Proof.
  induction k as [k IH] using lt_wf_ind. intros a le1 le2 Hk Ha.
  rewrite attempt_loop_eq, Guide_attempt_loop_eq.
  assert (Ha' : (a <=? retries cfg)%nat = true) by (apply Nat.leb_le; lia).
  rewrite Ha'.
  pose proof (attempt_body_agree (S a)) as Hbody.
  destruct (attempt_body cfg finalUrl options (S a)) as [v1 | e1];
    destruct (Guide.attempt_body cfg finalUrl options (S a)) as [v2 | e2];
    try contradiction.
  - subst v2. split; reflexivity.
  - destruct Hbody as [Hagree Hdata].
    rewrite <- (agree_except_data_fatal e1 e2 Hagree).
    destruct ((S a <=? retries cfg)%nat && negb (isFatalError e1)) eqn:Hretry.
    + apply andb_true_iff in Hretry as [Hle _]. apply Nat.leb_le in Hle.
      cbv zeta. cbn [fst snd].
      destruct (IH (S (retries cfg) - S a)%nat ltac:(lia) (S a) (Some e1) (Some e2)
                  eq_refl Hle) as [Hevs Hout].
      rewrite Hevs. split; [reflexivity | exact Hout].
    + cbn [fst snd]. split; [reflexivity|].
      exists e1, e2, (S a).
      split; [reflexivity|]. split; [reflexivity|]. split; assumption.
Qed.

End Variants.

Lemma build_options_method `{Host} (cfg : RequestConfig) :
  o_method (build_options cfg) = toUpperCase (method cfg).
Proof.
  unfold build_options. cbn [o_method].
  destruct (truthy_body (body cfg) && _); [|reflexivity].
  destruct (typeof_object (body cfg) && _); reflexivity.
Qed.




(** * Further properties of the code *)

(** ** The shape of every run *)

Lemma backoff_first (d : Z) : backoff d 1 = d.
Proof. unfold backoff. cbn. lia. Qed.

Lemma backoff_double (d : Z) (n : nat) :
  (1 <= n)%nat -> backoff d (S n) = 2 * backoff d n.
Proof.
  intros Hn. unfold backoff.
  replace (Z.of_nat (S n) - 1) with (Z.succ (Z.of_nat n - 1)) by lia.
  rewrite Z.pow_succ_r by lia. lia.
Qed.

Lemma sum_backoff (d : Z) (count : nat) :
  fold_right Z.add 0 (map (backoff d) (seq 1 count)) = d * (2 ^ Z.of_nat count - 1).
Proof.
  induction count as [|k IH]; [cbn; lia|].
  rewrite seq_S, map_app, fold_right_app. cbn [map fold_right].
  replace (fold_right Z.add (backoff d (1 + k) + 0) (map (backoff d) (seq 1 k)))
    with (fold_right Z.add 0 (map (backoff d) (seq 1 k)) + backoff d (1 + k)).
  - rewrite IH. unfold backoff.
    replace (Z.of_nat (1 + k) - 1) with (Z.of_nat k) by lia.
    rewrite Nat2Z.inj_succ, Z.pow_succ_r by lia. lia.
  - generalize (backoff d (1 + k)). generalize (map (backoff d) (seq 1 k)).
    intros l z. induction l as [|x l IHl]; cbn; [lia|]. rewrite <- IHl. lia.
Qed.

Lemma method_has_no_body_false (m : string) :
  method_has_no_body m = false <-> m <> "GET" /\ m <> "HEAD".
Proof.
  unfold method_has_no_body. cbn.
  destruct (String.eqb_spec m "GET"), (String.eqb_spec m "HEAD"); cbn;
    split; try discriminate; try tauto; intros [? ?]; congruence.
Qed.

Section Shape.
Context `{Host} (cfg : RequestConfig) (finalUrl : URL) (options : RequestInit).

(** A run of the loop stops at the first attempt [n] that returns, fails
    fatally or finds the budget spent; every attempt before it failed with
    a retryable error and was followed by its backoff sleep. *)
Lemma attempt_loop_shape (k : nat) :
  forall (a : nat) (le : option JsError),
    (S (retries cfg) - a = k)%nat -> (a <= retries cfg)%nat ->
    exists n,
      (a < n <= S (retries cfg))%nat
      /\ snd (attempt_loop cfg finalUrl options a le)
         = (retry_schedule (toString finalUrl) options (retryDelay cfg) (S a) (n - S a)
            ++ [EvFetch n (toString finalUrl) options])%list
      /\ (forall m, (a < m < n)%nat ->
            exists e, attempt_body cfg finalUrl options m = Throw e
                      /\ isFatalError e = false)
      /\ match fst (attempt_loop cfg finalUrl options a le) with
         | Returned v => attempt_body cfg finalUrl options n = Ok v
         | Thrown out =>
             exists e,
               attempt_body cfg finalUrl options n = Throw e
               /\ out = Some (enhanceError e
                                {| ctx_url := toString finalUrl;
                                   ctx_method := method cfg;
                                   ctx_attempt := n |})
               /\ (n = S (retries cfg) \/ isFatalError e = true)
         end.
Proof.
  induction k as [k IH] using lt_wf_ind. intros a le Hk Ha.
  rewrite attempt_loop_eq.
  assert (Ha' : (a <=? retries cfg)%nat = true) by (apply Nat.leb_le; lia).
  rewrite Ha'.
  destruct (attempt_body cfg finalUrl options (S a)) as [v | e] eqn:Hb.
  - exists (S a). cbn [fst snd]. replace (S a - S a)%nat with 0%nat by lia.
    split; [lia|]. split; [reflexivity|]. split; [intros m Hm; lia|].
    exact Hb.
  - destruct ((S a <=? retries cfg)%nat && negb (isFatalError e)) eqn:Hretry.
    + apply andb_true_iff in Hretry as [Hle Hnf]. apply Nat.leb_le in Hle.
      apply negb_true_iff in Hnf.
      destruct (IH (S (retries cfg) - S a)%nat ltac:(lia) (S a) (Some e)
                  eq_refl Hle) as (n & Hn & Hevs & Hbefore & Hout).
      exists n. cbv zeta. cbn [fst snd]. split; [lia|]. split; [|split].
      * rewrite Hevs. replace (n - S a)%nat with (S (n - S (S a))) by lia.
        reflexivity.
      * intros m Hm. destruct (Nat.eq_dec m (S a)) as [-> | Hne].
        -- exists e. split; assumption.
        -- apply Hbefore. lia.
      * exact Hout.
    + exists (S a). cbn [fst snd]. replace (S a - S a)%nat with 0%nat by lia.
      split; [lia|]. split; [reflexivity|]. split; [intros m Hm; lia|].
      exists e. split; [exact Hb|]. split; [reflexivity|].
      apply andb_false_iff in Hretry as [Hgt | Hf].
      * left. apply Nat.leb_gt in Hgt. lia.
      * right. apply negb_false_iff in Hf. exact Hf.
Qed.

End Shape.

(** X1: every run, whatever the transport does, issues between 1 and
    [retries + 1] requests, all with the same URL and the same options; the
    requests are numbered 1, 2, ... and each one but the last is followed by
    its backoff sleep, so that request [k] is followed by
    [retryDelay * 2^(k-1)]. Every attempt before the last failed with a
    retryable error. The run returns the value of the last attempt, or
    throws its error, enriched, when that error is fatal or the attempt is
    number [retries + 1]. *)
Theorem X1_run_shape `{Host} (url : Locator) (cfg : RequestConfig) :
  exists n,
    (1 <= n <= retries cfg + 1)%nat
    /\ snd (fetchEnhanced url cfg)
       = (retry_schedule (toString (build_finalUrl url (query cfg)))
            (build_options cfg) (retryDelay cfg) 1 (n - 1)
          ++ [EvFetch n (toString (build_finalUrl url (query cfg)))
                (build_options cfg)])%list
    /\ fetch_numbers (snd (fetchEnhanced url cfg)) = seq 1 n
    /\ delays (snd (fetchEnhanced url cfg))
       = map (fun k => retryDelay cfg * 2 ^ (Z.of_nat k - 1)) (seq 1 (n - 1))
    /\ (forall m, (1 <= m < n)%nat -> attempt_fails_retryably url cfg m)
    /\ match fst (fetchEnhanced url cfg) with
       | Returned v =>
           attempt_body cfg (build_finalUrl url (query cfg)) (build_options cfg) n
           = Ok v
       | Thrown out =>
           exists e,
             attempt_body cfg (build_finalUrl url (query cfg)) (build_options cfg) n
             = Throw e
             /\ out = Some (enhanceError e
                              {| ctx_url := toString (build_finalUrl url (query cfg));
                                 ctx_method := method cfg;
                                 ctx_attempt := n |})
             /\ (n = (retries cfg + 1)%nat \/ isFatalError e = true)
       end.
Proof.
  unfold fetchEnhanced.
  destruct (attempt_loop_shape cfg (build_finalUrl url (query cfg))
              (build_options cfg) _ 0 None eq_refl ltac:(lia))
    as (n & Hn & Hevs & Hbefore & Hout).
  exists n. split; [lia|].
  cbn [Nat.sub] in Hevs.
  split; [exact Hevs|]. split; [|split; [|split]].
  - rewrite Hevs, fetch_numbers_app, fetch_numbers_retry_schedule. cbn.
    replace n with (n - 1 + 1)%nat at 3 by lia.
    rewrite (seq_app (n - 1) 1 1). cbn.
    replace (S (n - 1)) with n by lia. reflexivity.
  - rewrite Hevs, delays_app, delays_retry_schedule. cbn. apply app_nil_r.
  - intros m Hm. apply Hbefore. lia.
  - destruct (fst (attempt_loop cfg _ _ 0 None)) as [v | out]; [exact Hout|].
    destruct Hout as (e & Hb & Hout & Hstop). exists e.
    split; [exact Hb|]. split; [exact Hout|].
    destruct Hstop as [-> | Hf]; [left; lia | right; exact Hf].
Qed.

Lemma X1_run_shape_witness :
  exists n,
    (1 <= n <= retries default_config + 1)%nat
    /\ fetch_numbers
         (snd (@fetchEnhanced
                 (scripted_host [Ok (unreadable_response 503);
                                 Ok (json_response 200 (JNumber 1))])
                 sample_locator default_config)) = seq 1 n
    /\ delays
         (snd (@fetchEnhanced
                 (scripted_host [Ok (unreadable_response 503);
                                 Ok (json_response 200 (JNumber 1))])
                 sample_locator default_config))
       = map (fun k => retryDelay default_config * 2 ^ (Z.of_nat k - 1))
             (seq 1 (n - 1)).
Proof.
  destruct (@X1_run_shape
              (scripted_host [Ok (unreadable_response 503);
                              Ok (json_response 200 (JNumber 1))])
              sample_locator default_config)
    as (n & Hn & _ & Hnums & Hdelays & _).
  exists n. exact (conj Hn (conj Hnums Hdelays)).
Defined.

(** X2: a call returns the decoded body of the first response that passes
    the status validator: when attempts 1 to [N - 1] fail with retryable
    errors and attempt [N] (within the budget) receives a response whose
    status is valid and whose body [parseResponse] decodes to [v], the call
    returns [v] after [N] requests and [N - 1] sleeps, and sleeps no more. *)
Theorem X2_success_after_retries `{Host} (url : Locator) (cfg : RequestConfig)
    (N : nat) (response : Response) (v : Payload) :
  (1 <= N <= retries cfg + 1)%nat ->
  (forall n, (1 <= n < N)%nat -> attempt_fails_retryably url cfg n) ->
  fetch N (toString (build_finalUrl url (query cfg))) (build_options cfg)
    = Ok response ->
  validateStatus cfg (r_status response) = true ->
  parseResponse response (responseType cfg) = Ok v ->
  fst (fetchEnhanced url cfg) = Returned v
  /\ fetch_numbers (snd (fetchEnhanced url cfg)) = seq 1 N
  /\ delays (snd (fetchEnhanced url cfg))
     = map (fun k => retryDelay cfg * 2 ^ (Z.of_nat k - 1)) (seq 1 (N - 1)).
Proof.
  intros HN Hfail Hfetch Hval Hparse.
  assert (Hb : attempt_body cfg (build_finalUrl url (query cfg)) (build_options cfg) N
               = Ok v).
  { unfold attempt_body. rewrite Hfetch. cbn [bind]. rewrite Hval. exact Hparse. }
  unfold fetchEnhanced.
  destruct (attempt_loop_retries cfg (build_finalUrl url (query cfg))
              (build_options cfg) (N - 1) 0 None)
    as (le' & Heq); [lia | intros n Hn; apply Hfail; lia |].
  rewrite Heq. cbn [Nat.add].
  rewrite (attempt_loop_return cfg _ _ (N - 1) le' v);
    replace (S (N - 1)) with N by lia; [| lia | exact Hb].
  cbn [fst snd]. split; [reflexivity|]. split.
  - rewrite fetch_numbers_app, fetch_numbers_retry_schedule. cbn.
    replace N with (N - 1 + 1)%nat at 3 by lia.
    rewrite (seq_app (N - 1) 1 1). cbn.
    replace (S (N - 1)) with N by lia. reflexivity.
  - rewrite delays_app, delays_retry_schedule. cbn. apply app_nil_r.
Qed.

Lemma X2_success_after_retries_witness :
  fst (@fetchEnhanced
         (scripted_host [Ok (unreadable_response 503);
                         Ok (json_response 200 (JNumber 1))])
         sample_locator default_config) = Returned (PJson (JNumber 1))
  /\ fetch_numbers
       (snd (@fetchEnhanced
               (scripted_host [Ok (unreadable_response 503);
                               Ok (json_response 200 (JNumber 1))])
               sample_locator default_config)) = seq 1 2
  /\ delays
       (snd (@fetchEnhanced
               (scripted_host [Ok (unreadable_response 503);
                               Ok (json_response 200 (JNumber 1))])
               sample_locator default_config))
     = map (fun k => retryDelay default_config * 2 ^ (Z.of_nat k - 1))
           (seq 1 (2 - 1)).
Proof.
  apply (@X2_success_after_retries
           (scripted_host [Ok (unreadable_response 503);
                           Ok (json_response 200 (JNumber 1))])
           sample_locator default_config 2
           (json_response 200 (JNumber 1)) (PJson (JNumber 1))).
  - cbn. lia.
  - intros n Hn. assert (n = 1%nat) as -> by lia.
    eexists. split; reflexivity.
  - reflexivity.
  - reflexivity.
  - reflexivity.
Defined.

(** X3: when every attempt fails with a retryable error, the delays slept
    are [retryDelay], [2 * retryDelay], ..., [2^(R-1) * retryDelay] for
    [R = retries], each the double of the one before, and they add up to
    [retryDelay * (2^R - 1)]. *)
Theorem X3_total_backoff `{Host} (url : Locator) (cfg : RequestConfig) :
  (forall n, (1 <= n <= retries cfg + 1)%nat -> attempt_fails_retryably url cfg n) ->
  delays (snd (fetchEnhanced url cfg))
    = map (fun k => retryDelay cfg * 2 ^ (Z.of_nat k - 1)) (seq 1 (retries cfg))
  /\ fold_right Z.add 0 (delays (snd (fetchEnhanced url cfg)))
     = retryDelay cfg * (2 ^ Z.of_nat (retries cfg) - 1)
  /\ (forall k d1 d2,
        delays (snd (fetchEnhanced url cfg)) !! k = Some d1 ->
        delays (snd (fetchEnhanced url cfg)) !! S k = Some d2 ->
        d2 = 2 * d1).
Proof.
  intros Hfail.
  destruct (Hfail (retries cfg + 1)%nat) as (e & Hb & _); [lia|].
  rewrite (fetchEnhanced_stops_at url cfg (retries cfg + 1) e);
    [| lia | intros n Hn; apply Hfail; lia | exact Hb | left; reflexivity].
  cbn [snd]. rewrite delays_app, delays_retry_schedule.
  replace (retries cfg + 1 - 1)%nat with (retries cfg) by lia.
  cbn [delays omap]. rewrite app_nil_r.
  split; [reflexivity|]. split; [apply sum_backoff|].
  intros k d1 d2 H1 H2.
  apply list_lookup_fmap_Some in H1 as (n1 & -> & H1).
  apply list_lookup_fmap_Some in H2 as (n2 & -> & H2).
  apply lookup_seq in H1 as [-> _]. apply lookup_seq in H2 as [-> _].
  replace (1 + S k)%nat with (S (1 + k)) by lia.
  apply backoff_double. lia.
Qed.

Lemma X3_total_backoff_witness :
  delays (snd (@fetchEnhanced (constant_host (Ok (unreadable_response 500)))
                 sample_locator default_config))
    = map (fun k => retryDelay default_config * 2 ^ (Z.of_nat k - 1))
          (seq 1 (retries default_config))
  /\ fold_right Z.add 0
       (delays (snd (@fetchEnhanced (constant_host (Ok (unreadable_response 500)))
                       sample_locator default_config)))
     = retryDelay default_config * (2 ^ Z.of_nat (retries default_config) - 1).
Proof.
  destruct (@X3_total_backoff (constant_host (Ok (unreadable_response 500)))
              sample_locator default_config) as (Hd & Hsum & _).
  - intros n _. eexists. split; reflexivity.
  - exact (conj Hd Hsum).
Defined.

(** X4: with [retries = 0] a call issues exactly one request and never
    sleeps, whatever the transport answers. *)
Theorem X4_no_retry_without_budget `{Host} (url : Locator) (cfg : RequestConfig) :
  retries cfg = 0%nat ->
  snd (fetchEnhanced url cfg)
  = [EvFetch 1 (toString (build_finalUrl url (query cfg))) (build_options cfg)].
Proof.
  intros Hr. unfold fetchEnhanced.
  destruct (attempt_loop_shape cfg (build_finalUrl url (query cfg))
              (build_options cfg) _ 0 None eq_refl ltac:(lia))
    as (n & Hn & Hevs & _).
  assert (n = 1%nat) as -> by lia. exact Hevs.
Qed.

Lemma X4_no_retry_without_budget_witness :
  snd (@fetchEnhanced (constant_host (Ok (unreadable_response 500)))
         sample_locator sample_single_config)
  = [EvFetch 1
       (toString (build_finalUrl sample_locator (query sample_single_config)))
       (@build_options (constant_host (Ok (unreadable_response 500)))
          sample_single_config)].
Proof.
  apply (@X4_no_retry_without_budget
           (constant_host (Ok (unreadable_response 500)))
           sample_locator sample_single_config).
  reflexivity.
Defined.

(** X5: in the guide's variant every thrown value is an error that
    carries the final URL, the method in upper case, as it was sent, and the
    number of the attempt that ended the call, which is the number of
    requests issued; the variant never throws [null]. *)
Theorem X5_guide_error_context `{Host} (url : Locator) (cfg : RequestConfig)
    (out : option JsError) (evs : list Event) :
  Guide.fetchEnhanced url cfg = (Thrown out, evs) ->
  exists e n,
    out = Some e
    /\ e_url e = Some (toString (build_finalUrl url (query cfg)))
    /\ e_method e = Some (toUpperCase (method cfg))
    /\ e_method e = Some (o_method (Guide.build_options cfg))
    /\ e_attempt e = Some n
    /\ (1 <= n <= retries cfg + 1)%nat
    /\ fetch_numbers evs = seq 1 n.
Proof.
  unfold Guide.fetchEnhanced. rewrite build_options_Guide. intros Hrun.
  destruct (attempt_loops_agree cfg (build_finalUrl url (query cfg))
              (build_options cfg) _ 0 None None eq_refl ltac:(lia))
    as [Hevs Hout].
  rewrite Hrun in Hevs, Hout. cbn [fst snd] in Hevs, Hout.
  destruct (attempt_loop cfg (build_finalUrl url (query cfg)) (build_options cfg)
              0 None) as [o1 evs1] eqn:Hrun1.
  cbn [fst snd] in Hevs, Hout. subst evs1.
  destruct o1 as [p1 | [e1|]]; try contradiction;
    destruct out as [e2|]; try contradiction.
  destruct Hout as (e1' & e2' & n & -> & -> & _ & _).
  destruct (attempt_loop_thrown cfg _ _ _ 0 None _ evs eq_refl ltac:(lia) Hrun1)
    as (e0 & n' & Heq & Hn' & _ & Hnums).
  injection Heq as _ _ _ _ _ Hnn. subst n'.
  eexists _, n. split; [reflexivity|].
  cbn [enhanceError e_url e_method e_attempt ctx_url ctx_method ctx_attempt].
  rewrite build_options_method.
  repeat split; try lia.
  rewrite Hnums. f_equal. lia.
Qed.

Lemma X5_guide_error_context_witness :
  exists e n,
    Some (enhanceError (FetchError "Request failed with status 500" 500
                          (PText "Failed to parse error response (status: 500)"))
            {| ctx_url := "https://api.example.com/data";
               ctx_method := "POST"; ctx_attempt := 1 |}) = Some e
    /\ e_url e = Some (toString (build_finalUrl sample_locator
                                   (query sample_post_config)))
    /\ e_method e = Some (toUpperCase (method sample_post_config))
    /\ e_method e
       = Some (o_method (@Guide.build_options
                           (constant_host (Ok (unreadable_response 500)))
                           sample_post_config))
    /\ e_attempt e = Some n
    /\ (1 <= n <= retries sample_post_config + 1)%nat
    /\ fetch_numbers
         (snd (@Guide.fetchEnhanced (constant_host (Ok (unreadable_response 500)))
                 sample_locator sample_post_config)) = seq 1 n.
Proof.
  apply (@X5_guide_error_context (constant_host (Ok (unreadable_response 500)))
           sample_locator sample_post_config).
  vm_compute. reflexivity.
Defined.

(** X6: a [TypeError] (the error [fetch] throws when the network or the
    address fails) is never retried: when attempt [N] ends in one, after
    [N - 1] retryable failures, the call ends on attempt [N] with that
    error, whatever budget is left. *)
Theorem X6_type_error_stops_retries `{Host} (url : Locator) (cfg : RequestConfig)
    (N : nat) (e : JsError) :
  (1 <= N <= retries cfg + 1)%nat ->
  (forall n, (1 <= n < N)%nat -> attempt_fails_retryably url cfg n) ->
  fetch N (toString (build_finalUrl url (query cfg))) (build_options cfg)
    = Throw e ->
  e_isTypeError e = true ->
  fetch_numbers (snd (fetchEnhanced url cfg)) = seq 1 N
  /\ length (delays (snd (fetchEnhanced url cfg))) = (N - 1)%nat
  /\ fst (fetchEnhanced url cfg)
     = Thrown (Some (enhanceError e
                       {| ctx_url := toString (build_finalUrl url (query cfg));
                          ctx_method := method cfg;
                          ctx_attempt := N |})).
Proof.
  intros HN Hfail Hfetch Htype.
  assert (Hb : attempt_body cfg (build_finalUrl url (query cfg)) (build_options cfg) N
               = Throw e).
  { unfold attempt_body. rewrite Hfetch. reflexivity. }
  assert (Hf : isFatalError e = true).
  { unfold isFatalError. rewrite Htype, orb_true_r. reflexivity. }
  rewrite (fetchEnhanced_stops_at url cfg N e HN Hfail Hb (or_intror Hf)).
  cbn [fst snd]. split; [|split; [|reflexivity]].
  - rewrite fetch_numbers_app, fetch_numbers_retry_schedule.
    replace N with (N - 1 + 1)%nat at 3 by lia.
    rewrite (seq_app (N - 1) 1 1). cbn.
    replace (S (N - 1)) with N by lia. reflexivity.
  - rewrite delays_app, delays_retry_schedule, length_app, length_map, length_seq.
    cbn. lia.
Qed.

Lemma X6_type_error_stops_retries_witness :
  fetch_numbers
    (snd (@fetchEnhanced (constant_host (Throw network_error))
            sample_locator default_config)) = seq 1 1
  /\ length (delays
       (snd (@fetchEnhanced (constant_host (Throw network_error))
               sample_locator default_config))) = (1 - 1)%nat
  /\ fst (@fetchEnhanced (constant_host (Throw network_error))
            sample_locator default_config)
     = Thrown (Some (enhanceError network_error
                       {| ctx_url := toString (build_finalUrl sample_locator
                                                 (query default_config));
                          ctx_method := method default_config;
                          ctx_attempt := 1 |})).
Proof.
  apply (@X6_type_error_stops_retries (constant_host (Throw network_error))
           sample_locator default_config 1 network_error).
  - cbn. lia.
  - intros n Hn. lia.
  - reflexivity.
  - reflexivity.
Defined.

(** X7: a failure to decode the body of an accepted response is caught by
    the same handler as a transport failure: when every attempt receives a
    response with a valid status whose body [parseResponse] cannot decode,
    the error being retryable, the request is issued [retries + 1] times and
    the decoding error of the last response is thrown, enriched. *)
Theorem X7_decode_failure_is_retried `{Host} (url : Locator) (cfg : RequestConfig) :
  (forall n, (1 <= n <= retries cfg + 1)%nat ->
     exists response e,
       fetch n (toString (build_finalUrl url (query cfg))) (build_options cfg)
         = Ok response
       /\ validateStatus cfg (r_status response) = true
       /\ parseResponse response (responseType cfg) = Throw e
       /\ isFatalError e = false) ->
  fetch_numbers (snd (fetchEnhanced url cfg)) = seq 1 (retries cfg + 1)
  /\ exists response e,
       fetch (retries cfg + 1) (toString (build_finalUrl url (query cfg)))
         (build_options cfg) = Ok response
       /\ parseResponse response (responseType cfg) = Throw e
       /\ fst (fetchEnhanced url cfg)
          = Thrown (Some (enhanceError e
                            {| ctx_url := toString (build_finalUrl url (query cfg));
                               ctx_method := method cfg;
                               ctx_attempt := retries cfg + 1 |})).
Proof.
  intros Hall.
  assert (Hbody : forall n, (1 <= n <= retries cfg + 1)%nat ->
            exists response e,
              fetch n (toString (build_finalUrl url (query cfg))) (build_options cfg)
                = Ok response
              /\ parseResponse response (responseType cfg) = Throw e
              /\ attempt_body cfg (build_finalUrl url (query cfg))
                   (build_options cfg) n = Throw e
              /\ isFatalError e = false).
  { intros n Hn. destruct (Hall n Hn) as (response & e & Hfetch & Hval & Hparse & Hf).
    exists response, e. repeat split; try assumption.
    unfold attempt_body. rewrite Hfetch. cbn [bind]. rewrite Hval. exact Hparse. }
  destruct (Hbody (retries cfg + 1)%nat ltac:(lia))
    as (response & e & Hfetch & Hparse & Hb & _).
  rewrite (fetchEnhanced_stops_at url cfg (retries cfg + 1) e);
    [| lia | | exact Hb | left; reflexivity].
  - cbn [fst snd]. split.
    + rewrite fetch_numbers_app, fetch_numbers_retry_schedule.
      replace (retries cfg + 1 - 1)%nat with (retries cfg) by lia.
      rewrite (seq_app (retries cfg) 1 1). cbn.
      replace (retries cfg + 1)%nat with (S (retries cfg)) by lia. reflexivity.
    + exists response, e. repeat split; assumption.
  - intros n Hn. destruct (Hbody n ltac:(lia)) as (_ & e' & _ & _ & Hb' & Hf').
    exists e'. split; assumption.
Qed.

Lemma X7_decode_failure_is_retried_witness :
  fetch_numbers
    (snd (@fetchEnhanced
            (constant_host (Ok (text_response 200 (Some "application/json") "<html>")))
            sample_locator default_config)) = seq 1 (retries default_config + 1)
  /\ exists response e,
       Ok (text_response 200 (Some "application/json") "<html>") = Ok response
       /\ parseResponse response (responseType default_config) = Throw e
       /\ fst (@fetchEnhanced
                 (constant_host
                    (Ok (text_response 200 (Some "application/json") "<html>")))
                 sample_locator default_config)
          = Thrown (Some (enhanceError e
                            {| ctx_url := toString (build_finalUrl sample_locator
                                                      (query default_config));
                               ctx_method := method default_config;
                               ctx_attempt := retries default_config + 1 |})).
Proof.
  apply (@X7_decode_failure_is_retried
           (constant_host (Ok (text_response 200 (Some "application/json") "<html>")))
           sample_locator default_config).
  intros n _. eexists _, _. repeat split.
Defined.

(** ** Request options, whatever the body *)

(** X8: no body is attached exactly when the body is [null] or the empty
    string, or the method, in upper case, is GET or HEAD. *)
Theorem X8_body_attached_iff `{Host} (cfg : RequestConfig) :
  o_body (build_options cfg) = None
  <-> body cfg = BodyNull \/ body cfg = BodyString EmptyString
      \/ toUpperCase (method cfg) = "GET" \/ toUpperCase (method cfg) = "HEAD".
Proof.
  unfold build_options. cbn [o_method o_headers o_signal].
  destruct (method_has_no_body (toUpperCase (method cfg))) eqn:Hm.
  - rewrite andb_false_r. cbn [o_body]. split; [intros _|reflexivity].
    unfold method_has_no_body in Hm. cbn in Hm.
    destruct (String.eqb_spec (toUpperCase (method cfg)) "GET"); [tauto|].
    destruct (String.eqb_spec (toUpperCase (method cfg)) "HEAD"); [tauto|].
    discriminate.
  - apply method_has_no_body_false in Hm as [Hget Hhead].
    rewrite andb_true_r.
    destruct (body cfg) as [|[|c s]| | |]; cbn; split;
      try discriminate; try tauto;
      intros [Hb | [Hb | [Hb | Hb]]]; congruence.
Qed.

Lemma X8_body_attached_witness :
  o_body (@build_options (constant_host (Ok (unreadable_response 500)))
            sample_get_config) = None.
Proof.
  apply (proj2 (@X8_body_attached_iff
                  (constant_host (Ok (unreadable_response 500)))
                  sample_get_config)).
  right. right. left. reflexivity.
Defined.

(** X9: a non-empty string body and a [FormData] body are handed to
    [fetch] as they are, and the headers are the caller's: no [Content-Type]
    is added for them. *)
Theorem X9_body_passthrough `{Host} (cfg : RequestConfig) :
  toUpperCase (method cfg) <> "GET" ->
  toUpperCase (method cfg) <> "HEAD" ->
  (exists s, body cfg = BodyString s /\ s <> EmptyString)
  \/ (exists entries, body cfg = BodyFormData entries) ->
  o_body (build_options cfg) = Some (body cfg)
  /\ o_headers (build_options cfg) = headers cfg.
Proof.
  intros Hget Hhead Hbody.
  apply build_options_passthrough.
  - apply method_has_no_body_false. split; assumption.
  - destruct Hbody as [(s & -> & Hs) | (entries & ->)]; [|reflexivity].
    destruct s; [congruence | reflexivity].
  - destruct Hbody as [(s & -> & _) | (entries & ->)];
      [left | right]; reflexivity.
Qed.

Lemma X9_body_passthrough_witness :
  o_body (@build_options (constant_host (Ok (unreadable_response 500)))
            sample_string_config) = Some (body sample_string_config)
  /\ o_headers (@build_options (constant_host (Ok (unreadable_response 500)))
                  sample_string_config) = headers sample_string_config.
Proof.
  apply (@X9_body_passthrough (constant_host (Ok (unreadable_response 500)))
           sample_string_config).
  - discriminate.
  - discriminate.
  - left. exists "a=1". split; [reflexivity | discriminate].
Defined.

(** X10: the options keep every header of the caller: a header other than
    [Content-Type] is never touched, a non-empty [Content-Type] of the
    caller is never replaced, and the only value the code ever writes is
    [application/json]. *)
Theorem X10_headers_kept `{Host} (cfg : RequestConfig) :
  (forall k, k <> "Content-Type" ->
     o_headers (build_options cfg) !! k = headers cfg !! k)
  /\ (forall v, headers cfg !! "Content-Type" = Some v -> v <> EmptyString ->
        o_headers (build_options cfg) !! "Content-Type" = Some v)
  /\ (o_headers (build_options cfg) !! "Content-Type" = headers cfg !! "Content-Type"
      \/ o_headers (build_options cfg) !! "Content-Type" = Some "application/json").
Proof.
  unfold build_options. cbn [o_method o_headers o_signal].
  destruct (truthy_body (body cfg) && _); [|cbn; auto].
  destruct (typeof_object (body cfg) && _); [|cbn; auto].
  cbn [o_headers]. split; [|split].
  - intros k Hk. apply lookup_insert_ne. congruence.
  - intros v Hv Hne. rewrite Hv, or_string_truthy by exact Hne.
    rewrite lookup_insert_eq. reflexivity.
  - rewrite lookup_insert_eq. unfold or_string.
    destruct (headers cfg !! "Content-Type") as [v|]; [|right; reflexivity].
    destruct (truthy_string v); [left | right]; reflexivity.
Qed.

Lemma X10_headers_kept_witness :
  o_headers (@build_options (constant_host (Ok (unreadable_response 500)))
               sample_put_config) !! "Content-Type" = Some "text/plain"
  /\ o_headers (@build_options (constant_host (Ok (unreadable_response 500)))
                  sample_string_config) !! "Accept"
     = headers sample_string_config !! "Accept".
Proof.
  split.
  - apply (proj1 (proj2 (@X10_headers_kept
                    (constant_host (Ok (unreadable_response 500)))
                    sample_put_config)));
      [reflexivity | discriminate].
  - apply (proj1 (@X10_headers_kept
                    (constant_host (Ok (unreadable_response 500)))
                    sample_string_config)).
    discriminate.
Defined.

(** X11: an empty [Content-Type] of the caller is falsy and counts as
    missing: with an object body and a method other than GET and HEAD it is
    replaced by [application/json]. *)
Theorem X11_empty_content_type_replaced `{Host} (cfg : RequestConfig) (obj : Json) :
  body cfg = BodyObject obj ->
  toUpperCase (method cfg) <> "GET" ->
  toUpperCase (method cfg) <> "HEAD" ->
  headers cfg !! "Content-Type" = Some EmptyString ->
  o_headers (build_options cfg) !! "Content-Type" = Some "application/json"
  /\ o_body (build_options cfg) = Some (BodyString (JSON_stringify (BodyObject obj))).
Proof.
  intros Hbody Hget Hhead Hct.
  assert (Hm : method_has_no_body (toUpperCase (method cfg)) = false)
    by (apply method_has_no_body_false; split; assumption).
  split; [apply (build_options_empty_content_type cfg obj Hbody Hm Hct)|].
  unfold build_options. rewrite Hbody.
  cbn [truthy_body typeof_object instanceof_FormData negb andb
       o_method o_headers o_signal].
  rewrite Hm. reflexivity.
Qed.

Lemma X11_empty_content_type_witness :
  o_headers (@build_options (constant_host (Ok (unreadable_response 500)))
               sample_signal_config) !! "Content-Type" = Some "application/json"
  /\ o_body (@build_options (constant_host (Ok (unreadable_response 500)))
               sample_signal_config)
     = Some (BodyString (sample_stringify (BodyObject (JObject [])))).
Proof.
  apply (@X11_empty_content_type_replaced
           (constant_host (Ok (unreadable_response 500)))
           sample_signal_config (JObject [])).
  - reflexivity.
  - discriminate.
  - discriminate.
  - reflexivity.
Defined.

(** X12: whatever the body and the headers, the method sent is the
    caller's in upper case, and the signal sent is the caller's signal when
    there is one; without one it is a timeout signal for [timeout]
    milliseconds, and no signal at all when [timeout] is 0. *)
Theorem X12_method_and_signal `{Host} (cfg : RequestConfig) :
  o_method (build_options cfg) = toUpperCase (method cfg)
  /\ (forall sg, signal cfg = Some sg -> o_signal (build_options cfg) = Some sg)
  /\ (signal cfg = None -> timeout cfg <> 0 ->
      o_signal (build_options cfg) = Some (TimeoutSignal (timeout cfg)))
  /\ (signal cfg = None -> timeout cfg = 0 ->
      o_signal (build_options cfg) = None).
Proof.
  split; [apply build_options_method|].
  rewrite build_options_signal. split; [|split].
  - intros sg ->. reflexivity.
  - intros -> Ht. apply Z.eqb_neq in Ht. rewrite Ht. reflexivity.
  - intros -> ->. reflexivity.
Qed.

Lemma X12_method_and_signal_witness :
  o_signal (@build_options (constant_host (Ok (unreadable_response 500)))
              sample_signal_config) = Some (ExternalSignal 7)
  /\ o_signal (@build_options (constant_host (Ok (unreadable_response 500)))
                 default_config) = Some (TimeoutSignal (timeout default_config)).
Proof.
  split.
  - apply (proj1 (proj2 (@X12_method_and_signal
                    (constant_host (Ok (unreadable_response 500)))
                    sample_signal_config))).
    reflexivity.
  - apply (proj1 (proj2 (proj2 (@X12_method_and_signal
                    (constant_host (Ok (unreadable_response 500)))
                    default_config))));
      [reflexivity | discriminate].
Defined.

(** ** Decoding, whatever the response *)

Lemma prefix_append (sub rest : string) : String.prefix sub (sub ++ rest) = true.
Proof.
  induction sub as [|c sub IH]; [rewrite append_nil; destruct rest; reflexivity|].
  rewrite append_cons. cbn [String.prefix].
  destruct (ascii_dec c c); [exact IH | congruence].
Qed.

Lemma includes_append (before sub after : string) :
  includes (before ++ sub ++ after) sub = true.
Proof.
  induction before as [|c before IH].
  - rewrite append_nil. destruct (sub ++ after) eqn:Heq;
      cbn [includes]; rewrite <- Heq, prefix_append; reflexivity.
  - rewrite append_cons. cbn [includes]. rewrite IH. apply orb_true_r.
Qed.

(** X13: an explicit response type makes the declared content type
    irrelevant: for a [responseType] other than ['auto'] two responses that
    differ only in their [Content-Type] header are decoded alike; ['json']
    always reads JSON and ['text'] always reads text. *)
Theorem X13_explicit_type_ignores_header (response : Response)
    (responseType : string) (contentType : option string) :
  (responseType <> "auto" ->
   parseResponse
     (mkResponse (r_status response) contentType (r_json response)
        (r_text response) (r_blob response) (r_arrayBuffer response))
     responseType
   = parseResponse response responseType)
  /\ parseResponse response "json" = response_json response
  /\ parseResponse response "text" = response_text response.
Proof.
  split; [|split; reflexivity].
  intros Hrt. unfold parseResponse, selectDecoder. cbn [r_contentType].
  destruct (String.eqb_spec responseType "auto"); [congruence|].
  repeat match goal with |- context [if ?b then _ else _] => destruct b end;
    reflexivity.
Qed.

Lemma X13_explicit_type_witness :
  parseResponse
    (mkResponse 200 (Some "application/json")
       (r_json (text_response 200 None "hi")) (r_text (text_response 200 None "hi"))
       (r_blob (text_response 200 None "hi"))
       (r_arrayBuffer (text_response 200 None "hi"))) "text"
  = parseResponse (text_response 200 None "hi") "text".
Proof.
  apply (proj1 (X13_explicit_type_ignores_header
                  (text_response 200 None "hi") "text" (Some "application/json"))).
  discriminate.
Defined.

(** X14: with ['auto'] it is enough that [json] occurs somewhere in the
    declared content type, with parameters or a structured suffix around it,
    for the body to be read as JSON, and [json] takes precedence over
    [text]; a type in which [text] occurs and [json] does not is read as
    text. *)
Theorem X14_content_type_substring (response : Response)
    (before after : string) :
  (r_contentType response = Some (before ++ "json" ++ after) ->
   parseResponse response "auto" = response_json response)
  /\ (r_contentType response = Some (before ++ "text" ++ after) ->
      includes (before ++ "text" ++ after) "json" = false ->
      parseResponse response "auto" = response_text response).
Proof.
  unfold parseResponse, selectDecoder.
  change (String.eqb "auto" "auto") with true. cbv iota.
  split.
  - intros ->. unfold or_string.
    destruct (truthy_string (before ++ "json" ++ after)) eqn:Ht.
    + rewrite includes_append. reflexivity.
    + exfalso. revert Ht. destruct before; discriminate.
  - intros -> Hnojson. unfold or_string.
    destruct (truthy_string (before ++ "text" ++ after)) eqn:Ht.
    + rewrite Hnojson, includes_append. reflexivity.
    + exfalso. revert Ht. destruct before; discriminate.
Qed.

Lemma X14_content_type_substring_witness :
  parseResponse
    (mkResponse 200 (Some ("application/problem+" ++ "json" ++ "; charset=utf-8"))
       (Ok JNull) (Ok "null") (Ok "null") (Ok "null")) "auto"
  = Ok (PJson JNull)
  /\ parseResponse
       (text_response 200 (Some (EmptyString ++ "text" ++ "/html")) "hi") "auto"
     = Ok (PText "hi").
Proof.
  split.
  - apply (proj1 (X14_content_type_substring
                    (mkResponse 200
                       (Some ("application/problem+" ++ "json" ++ "; charset=utf-8"))
                       (Ok JNull) (Ok "null") (Ok "null") (Ok "null"))
                    "application/problem+" "; charset=utf-8")).
    reflexivity.
  - apply (proj2 (X14_content_type_substring
                    (text_response 200 (Some (EmptyString ++ "text" ++ "/html")) "hi")
                    EmptyString "/html"));
      reflexivity.
Defined.


(** X15: where the two [parseErrorResponse] functions agree and where
    they differ: when [json()] reads the body both return the JSON value;
    when [json()] and the [text()] called after it both reject, fetch.js
    returns [null] and the guide's variant a string that names the status,
    so the two payloads differ. *)
Theorem X15_error_payloads_compared (response : Response) :
  (forall v, r_json response = Ok v ->
     parseErrorResponse response = Ok (PJson v)
     /\ Guide.parseErrorResponse response = Ok (PJson v))
  /\ (forall e1 e2, r_json response = Throw e1 -> r_text response = Throw e2 ->
        parseErrorResponse response = Ok PNull
        /\ Guide.parseErrorResponse response
           = Ok (PText ("Failed to parse error response (status: "
                        ++ string_of_Z (r_status response) ++ ")"))
        /\ parseErrorResponse response <> Guide.parseErrorResponse response).
Proof.
  rewrite parseErrorResponse_total, Guide_parseErrorResponse_total. split.
  - intros v ->. split; reflexivity.
  - intros e1 e2 -> ->. repeat split. discriminate.
Qed.

Lemma X15_error_payloads_witness :
  (parseErrorResponse (json_response 500 (JString "overloaded"))
   = Ok (PJson (JString "overloaded"))
   /\ Guide.parseErrorResponse (json_response 500 (JString "overloaded"))
      = Ok (PJson (JString "overloaded")))
  /\ parseErrorResponse (unreadable_response 502)
     <> Guide.parseErrorResponse (unreadable_response 502).
Proof.
  split.
  - apply (proj1 (X15_error_payloads_compared
                    (json_response 500 (JString "overloaded")))).
    reflexivity.
  - apply (proj2 (X15_error_payloads_compared (unreadable_response 502))
             (generic_error "SyntaxError") (generic_error "Error")
             eq_refl eq_refl).
Defined.

(** X16: apart from [parseErrorResponse] and the method handed to
    [enhanceError], the guide's variant computes what fetch.js computes:
    its [parseResponse], which reads the header before it looks at
    [responseType], returns the same completion, and its way of defaulting
    [Content-Type] builds the same options. *)
Theorem X16_guide_helpers_agree `{Host} (cfg : RequestConfig)
    (response : Response) (responseType : string) :
  Guide.parseResponse response responseType = parseResponse response responseType
  /\ Guide.build_options cfg = build_options cfg.
Proof.
  split; [apply parseResponse_decode | apply build_options_Guide].
Qed.

(** X17: which errors are retried: an error is fatal exactly when its name
    is [AbortError], or it is a [TypeError], or it carries a status from 400
    to 499; an error without a status, or with status 0 or a status of 500
    and above, is retried unless one of the first two holds. *)
Theorem X17_fatal_iff (e : JsError) :
  isFatalError e = true
  <-> e_name e = "AbortError"
      \/ e_isTypeError e = true
      \/ exists st, e_status e = Some st /\ 400 <= st < 500.
Proof.
  unfold isFatalError. rewrite !orb_true_iff. split.
  - intros [[Hn | Ht] | Hs].
    + left. apply String.eqb_eq. exact Hn.
    + right. left. exact Ht.
    + right. right. destruct (e_status e) as [st|]; [|discriminate].
      exists st. split; [reflexivity|]. apply status_is_client_error_spec. exact Hs.
  - intros [Hn | [Ht | (st & Hst & Hrange)]].
    + left. left. apply String.eqb_eq. exact Hn.
    + left. right. exact Ht.
    + right. rewrite Hst. apply status_is_client_error_spec. exact Hrange.
Qed.

Lemma X17_fatal_witness : isFatalError network_error = true.
Proof.
  apply (proj2 (X17_fatal_iff network_error)). right. left. reflexivity.
Defined.


(** X18: the error of a rejection: when the first response fails the
    validator and the call ends there (its status is from 400 to 499, or
    [retries] is 0), the error thrown is a [FetchError] whose message is
    [Request failed with status N], whose status is [N] and whose data is
    what [parseErrorResponse] returns for the response: the JSON value when
    [json()] reads the body, and [null] when [json()] and the [text()]
    called after it both reject. *)
Theorem X18_rejection_error `{Host} (url : Locator) (cfg : RequestConfig)
    (response : Response) :
  attempt_is_rejected url cfg 1 response ->
  400 <= r_status response < 500 \/ retries cfg = 0%nat ->
  exists e payload,
    fst (fetchEnhanced url cfg) = Thrown (Some e)
    /\ e_name e = "FetchError"
    /\ e_isTypeError e = false
    /\ e_message e = "Request failed with status " ++ string_of_Z (r_status response)
    /\ e_status e = Some (r_status response)
    /\ parseErrorResponse response = Ok payload
    /\ e_data e = Some payload
    /\ (forall v, r_json response = Ok v -> payload = PJson v)
    /\ (forall e1 e2, r_json response = Throw e1 -> r_text response = Throw e2 ->
          payload = PNull)
    /\ e_attempt e = Some 1%nat.
Proof.
  intros [Hfetch Hval] Hend.
  pose proof (parseErrorResponse_total response) as Hparse.
  destruct (parseErrorResponse response) as [payload | e0] eqn:Hpayload;
    [|discriminate].
  injection Hparse as Hparse.
  assert (Hb : attempt_body cfg (build_finalUrl url (query cfg)) (build_options cfg) 1
               = Throw (FetchError
                          ("Request failed with status "
                           ++ string_of_Z (r_status response))
                          (r_status response) payload)).
  { unfold attempt_body. rewrite Hfetch. cbn [bind].
    rewrite Hval, Hpayload. reflexivity. }
  rewrite (fetchEnhanced_stops_at url cfg 1 _ ltac:(lia) ltac:(intros; lia) Hb).
  - eexists _, payload. split; [reflexivity|].
    cbn [enhanceError FetchError e_name e_isTypeError e_message e_status e_data
         e_attempt ctx_attempt].
    split; [reflexivity|]. split; [reflexivity|]. split; [reflexivity|].
    split; [reflexivity|]. split; [reflexivity|]. split; [reflexivity|].
    split; [|split; [|reflexivity]].
    + intros v Hv. rewrite Hparse, Hv. reflexivity.
    + intros e1 e2 H1 H2. rewrite Hparse, H1, H2. reflexivity.
  - destruct Hend as [Hst | Hr].
    + right. apply isFatalError_FetchError. exact Hst.
    + left. lia.
Qed.

Lemma X18_rejection_error_witness :
  exists e payload,
    fst (@fetchEnhanced
           (constant_host (Ok (json_response 404 (JString "no such user"))))
           sample_locator default_config) = Thrown (Some e)
    /\ e_name e = "FetchError"
    /\ e_isTypeError e = false
    /\ e_message e
       = "Request failed with status "
         ++ string_of_Z (r_status (json_response 404 (JString "no such user")))
    /\ e_status e = Some (r_status (json_response 404 (JString "no such user")))
    /\ parseErrorResponse (json_response 404 (JString "no such user")) = Ok payload
    /\ e_data e = Some payload
    /\ (forall v, r_json (json_response 404 (JString "no such user")) = Ok v ->
          payload = PJson v)
    /\ (forall e1 e2,
          r_json (json_response 404 (JString "no such user")) = Throw e1 ->
          r_text (json_response 404 (JString "no such user")) = Throw e2 ->
          payload = PNull)
    /\ e_attempt e = Some 1%nat.
Proof.
  apply (@X18_rejection_error
           (constant_host (Ok (json_response 404 (JString "no such user"))))
           sample_locator default_config
           (json_response 404 (JString "no such user"))).
  - split; reflexivity.
  - left. cbn. lia.
Defined.

(** ** The final URL *)


(** X19: a query object that is empty, or whose values are all
    [undefined], leaves the URL as [new URL(url)] serializes it: the query
    the parser stored is kept as it is, it is not rewritten by the
    serializer of [searchParams], and no [?] is added. *)
Theorem X19_undefined_query_keeps_url (url : Locator)
    (query : list (string * QueryValue)) :
  Forall (fun kv => snd kv = QUndefined) query ->
  toString (build_finalUrl url query) = toString (new_URL url)
  /\ u_query (build_finalUrl url query) = l_query url.
Proof.
  intros Hall.
  assert (Hnone : defined_entries query = []).
  { induction Hall as [|[k v] q Hv _ IH]; [reflexivity|].
    cbn in Hv. subst v. exact IH. }
  unfold build_finalUrl, toString.
  destruct (fold_append_entries query (new_URL url)) as (Hb & Hf & _ & Hq).
  rewrite Hb, Hf, Hq, Hnone. split; reflexivity.
Qed.

Lemma X19_undefined_query_witness :
  toString (build_finalUrl
              (mkLocator "https://api.example.com/a" (Some "x=a%20b") None)
              [("skip", QUndefined)])
  = toString (new_URL (mkLocator "https://api.example.com/a" (Some "x=a%20b") None))
  /\ u_query (build_finalUrl
                (mkLocator "https://api.example.com/a" (Some "x=a%20b") None)
                [("skip", QUndefined)])
     = Some "x=a%20b".
Proof.
  apply (X19_undefined_query_keeps_url
           (mkLocator "https://api.example.com/a" (Some "x=a%20b") None)
           [("skip", QUndefined)]).
  repeat constructor.
Defined.

(** X20: the entries are appended, never merged or replaced: the list of
    pairs built from [q1 ++ q2] is the list built from [q1] followed by the
    defined entries of [q2], in order, and the list built from [q1] has as
    many pairs as the locator had plus one for every entry of [q1] whose
    value is not [undefined], so a key that occurs twice is written twice. *)
Theorem X20_entries_are_appended (url : Locator)
    (q1 q2 : list (string * QueryValue)) :
  u_searchParams (build_finalUrl url (q1 ++ q2))
  = (u_searchParams (build_finalUrl url q1) ++ defined_entries q2)%list
  /\ length (u_searchParams (build_finalUrl url q1))
     = (length (urlencoded_parse (default EmptyString (l_query url)))
        + length (List.filter (fun kv => negb (is_undefined (snd kv))) q1))%nat.
Proof.
  unfold build_finalUrl.
  destruct (fold_append_entries (q1 ++ q2) (new_URL url)) as (_ & _ & Hp12 & _).
  destruct (fold_append_entries q1 (new_URL url)) as (_ & _ & Hp1 & _).
  rewrite Hp12, Hp1, defined_entries_app, app_assoc. split; [reflexivity|].
  rewrite length_app. cbn [new_URL u_searchParams]. f_equal.
  clear. induction q1 as [|[k v] q IH]; [reflexivity|].
  unfold defined_entries in *. cbn [omap list_omap List.filter snd fst].
  destruct (is_undefined v); cbn [negb length]; rewrite IH; reflexivity.
Qed.

(** ** Cancellation by the caller *)

(** X21: when attempt [N] ends in an error named [AbortError], after
    [N - 1] retryable failures, the call ends on attempt [N] whatever budget
    is left: [N] requests are issued, nothing is slept after the last one,
    and the error thrown is that [AbortError], reporting attempt [N]. *)
Theorem X21_abort_error_stops_retries `{Host} (url : Locator) (cfg : RequestConfig)
    (N : nat) (e : JsError) :
  (1 <= N <= retries cfg + 1)%nat ->
  (forall n, (1 <= n < N)%nat -> attempt_fails_retryably url cfg n) ->
  attempt_body cfg (build_finalUrl url (query cfg)) (build_options cfg) N = Throw e ->
  e_name e = "AbortError" ->
  fetch_numbers (snd (fetchEnhanced url cfg)) = seq 1 N
  /\ length (delays (snd (fetchEnhanced url cfg))) = (N - 1)%nat
  /\ exists e',
       fst (fetchEnhanced url cfg) = Thrown (Some e')
       /\ e_name e' = "AbortError"
       /\ e_message e' = e_message e
       /\ e_attempt e' = Some N.
Proof.
  intros HN Hfail Hb Hname.
  rewrite (fetchEnhanced_stops_at url cfg N e HN Hfail Hb)
    by (right; apply isFatalError_AbortError; exact Hname).
  cbn [fst snd]. split; [|split].
  - rewrite fetch_numbers_app, fetch_numbers_retry_schedule.
    replace N with (N - 1 + 1)%nat at 3 by lia.
    rewrite (seq_app (N - 1) 1 1). cbn.
    replace (S (N - 1)) with N by lia. reflexivity.
  - rewrite delays_app, delays_retry_schedule, length_app, length_map, length_seq.
    cbn. lia.
  - eexists. repeat split. exact Hname.
Qed.

Lemma X21_abort_error_witness :
  fetch_numbers
    (snd (@fetchEnhanced
            (scripted_host [Ok (unreadable_response 500);
                            Throw (generic_error "AbortError")])
            sample_locator default_config)) = seq 1 2
  /\ length (delays
       (snd (@fetchEnhanced
               (scripted_host [Ok (unreadable_response 500);
                               Throw (generic_error "AbortError")])
               sample_locator default_config))) = (2 - 1)%nat
  /\ exists e',
       fst (@fetchEnhanced
              (scripted_host [Ok (unreadable_response 500);
                              Throw (generic_error "AbortError")])
              sample_locator default_config) = Thrown (Some e')
       /\ e_name e' = "AbortError"
       /\ e_message e' = e_message (generic_error "AbortError")
       /\ e_attempt e' = Some 2%nat.
Proof.
  apply (@X21_abort_error_stops_retries
           (scripted_host [Ok (unreadable_response 500);
                           Throw (generic_error "AbortError")])
           sample_locator default_config 2 (generic_error "AbortError")).
  - cbn. lia.
  - intros n Hn. assert (n = 1%nat) as -> by lia.
    eexists. split; reflexivity.
  - reflexivity.
  - reflexivity.
Defined.
